(** * Aptus Legal Agent: a shallow embedding of the client-side logic

    The development follows the TypeScript sources:
    - [types.ts]                 the data model (input bundle, response bundle, status);
    - [services/gemini.ts]       file preprocessing, the retry wrapper, [analyzeDocument];
    - [components/InputCard.tsx] upload validation and the submit button;
    - [App.tsx]                  the top-level state and its handlers.

    Conventions.  A JavaScript string is a [string] whose characters are read
    as code units below 256.  A JavaScript number is a binary64 [float], with
    the rounding of each operation.  A promise is modelled by the [outcome] it
    settles with.  Browser and SDK services the sources call but do not
    define (FileReader, canvas, JSON.parse, the generative model) are fields
    of a [Platform] record; the state of the remote service is threaded
    explicitly, together with a log of the observable effects. *)

From Stdlib Require Import PrimFloat.
From Stdlib Require Uint63 FloatOps SpecFloat.
From Stdlib Require Import ZArith QArith List String Ascii Bool Lia.
From Stdlib Require Import DecimalString DecimalPos DecimalZ.
From Equations Require Import Equations.
Import ListNotations.

Set Warnings "-register-all,-inexact-float".

Local Open Scope string_scope.
Local Open Scope Z_scope.
Local Open Scope list_scope.

(** String concatenation, as [+] or a template literal in the sources. *)
Infix "+++" := String.append (right associativity, at level 60).

(* ===================================================================== *)
(** ** JavaScript strings and errors *)
(* ===================================================================== *)

Module JS.

(** [s.startsWith(p)] *)
Definition startsWith (s p : string) : bool := String.prefix p s.

(** [s.includes(sub)] *)
Fixpoint includes (s sub : string) : bool :=
  String.prefix sub s ||
  match s with
  | EmptyString => false
  | String _ rest => includes rest sub
  end.

(** [s.indexOf(c)] for a one-character needle; [None] stands for [-1]. *)
Fixpoint indexOf (s : string) (c : ascii) : option nat :=
  match s with
  | EmptyString => None
  | String a rest =>
      if Ascii.eqb a c then Some O
      else option_map S (indexOf rest c)
  end.

(** [s.substring(i, j)]: both indices are clamped to the length and swapped
    when [i > j]. *)
Definition substring (s : string) (i j : nat) : string :=
  let len := String.length s in
  let i' := Nat.min i len in
  let j' := Nat.min j len in
  String.substring (Nat.min i' j') (Nat.max i' j' - Nat.min i' j') s.

(** [s.substring(i)] *)
Definition substringFrom (s : string) (i : nat) : string :=
  substring s i (String.length s).

(** [s.split(c)[0]]: everything before the first [c]. *)
Fixpoint splitHead (s : string) (c : ascii) : string :=
  match s with
  | EmptyString => EmptyString
  | String a rest => if Ascii.eqb a c then EmptyString else String a (splitHead rest c)
  end.

(** White space and line terminators below code unit 256:
    TAB, LF, VT, FF, CR, SP and NBSP. *)
Definition isWhiteSpace (c : ascii) : bool :=
  let n := nat_of_ascii c in
  (Nat.leb 9 n && Nat.leb n 13) || Nat.eqb n 32 || Nat.eqb n 160.

Fixpoint trimStart (s : string) : string :=
  match s with
  | EmptyString => EmptyString
  | String a rest => if isWhiteSpace a then trimStart rest else s
  end.

Fixpoint trimEnd (s : string) : string :=
  match s with
  | EmptyString => EmptyString
  | String a rest =>
      match trimEnd rest with
      | EmptyString => if isWhiteSpace a then EmptyString else String a EmptyString
      | r => String a r
      end
  end.

(** [s.trim()] *)
Definition trim (s : string) : string := trimEnd (trimStart s).

(** Truthiness of a string value: only the empty string is falsy. *)
Definition truthy (s : string) : bool :=
  match s with EmptyString => false | _ => true end.

(** Truthiness of an optional string ([undefined] is falsy). *)
Definition truthyOpt (o : option string) : bool :=
  match o with Some s => truthy s | None => false end.

(** The double-quote character, for building message texts. *)
Definition dq : string := String (ascii_of_nat 34) EmptyString.

(** A thrown value as the code inspects it: [error.message] and
    [error.status], either of which may be absent. *)
Record Error := mkError { message : option string; status : option Z }.

(** [new Error(msg)] *)
Definition newError (msg : string) : Error :=
  {| message := Some msg; status := None |}.

(** [error.message?.includes(code)]; [undefined] is falsy. *)
Definition messageIncludes (e : Error) (code : string) : bool :=
  match message e with
  | Some m => includes m code
  | None => false
  end.

(** [error.status === n] *)
Definition statusIs (e : Error) (n : Z) : bool :=
  match status e with
  | Some s => s =? n
  | None => false
  end.

(** How a promise settles. *)
Inductive outcome (A : Type) : Type :=
| Resolved (a : A)
| Rejected (e : Error).
Arguments Resolved {A} a.
Arguments Rejected {A} e.

Definition isRejected {A} (o : outcome A) : bool :=
  match o with Rejected _ => true | Resolved _ => false end.

(** Observable effects of the service layer, in program order. *)
Inductive effect : Type :=
| Invoke            (* the wrapped operation was called *)
| Delay (ms : Z).   (* [delay(ms)] was awaited *)

End JS.
Import JS.

(** [inspect] remembers the equation of a scrutinee in a [with] clause. *)
Definition inspect {A} (a : A) : {b | a = b} := exist _ a eq_refl.

(* ===================================================================== *)
(** ** JavaScript numbers *)
(* ===================================================================== *)

Module Number.

(** A number is a binary64 value; [+], [*] and [/] round to nearest, as the
    primitive operations on [float] do. *)
Definition number : Set := float.
Bind Scope float_scope with number.

(** The number for an integer property such as [img.width] or [file.size];
    exact up to 2^53, and defined for magnitudes below 2^63. *)
Definition ofInteger (z : Z) : number :=
  if z <? 0 then PrimFloat.opp (PrimFloat.of_uint63 (Uint63.of_Z (- z)))
  else PrimFloat.of_uint63 (Uint63.of_Z z).

(** [x > y] and [x >= y]; both are false when an operand is NaN. *)
Definition gtb (x y : number) : bool := PrimFloat.ltb y x.
Definition geb (x y : number) : bool := PrimFloat.leb y x.

(** [x < y] *)
Definition ltb (x y : number) : bool := PrimFloat.ltb x y.

(** [Math.min(x, y)]: NaN when an operand is NaN, and -0 below +0. *)
Definition Math_min (x y : number) : number :=
  if PrimFloat.is_nan x || PrimFloat.is_nan y then PrimFloat.nan
  else if PrimFloat.is_zero x && PrimFloat.is_zero y
       then (if PrimFloat.get_sign x then x else y)
  else if PrimFloat.ltb y x then y else x.

(** The integer part of a finite number, rounded towards zero; 0 for NaN
    and the infinities. *)
Definition truncate (x : number) : Z :=
  match FloatOps.Prim2SF x with
  | SpecFloat.S754_finite negative mantissa exponent =>
      let magnitude :=
        if 0 <=? exponent then Zpos mantissa * 2 ^ exponent
        else Zpos mantissa / 2 ^ (- exponent) in
      if negative then - magnitude else magnitude
  | _ => 0
  end.

(** The conversion of a number to an [unsigned long] attribute such as
    [canvas.width]: the fraction is dropped and the result wraps to 32
    bits. *)
Definition toUnsignedLong (x : number) : Z := truncate x mod 2 ^ 32.

End Number.
Import Number.

(* ===================================================================== *)
(** ** JSON values and a reference [JSON.parse] *)
(* ===================================================================== *)

Module JSON.

(** A JavaScript value as [JSON.parse] can produce it.  A number keeps its
    lexeme; an object keeps its members in insertion order, one per key.
    [JNull] is the JavaScript [null]. *)
Inductive json : Type :=
| JNull
| JBool (b : bool)
| JNumber (lexeme : string)
| JString (s : string)
| JArray (items : list json)
| JObject (members : list (string * json)).

(** [obj[key]]; [None] stands for [undefined]. *)
Fixpoint getMember (members : list (string * json)) (key : string) : option json :=
  match members with
  | [] => None
  | (k, v) :: rest => if String.eqb k key then Some v else getMember rest key
  end.

(** [obj[key] = v]: a repeated key overwrites the earlier value. *)
Fixpoint setMember (members : list (string * json)) (key : string) (v : json)
  : list (string * json) :=
  match members with
  | [] => [(key, v)]
  | (k, v0) :: rest =>
      if String.eqb k key then (k, v) :: rest else (k, v0) :: setMember rest key v
  end.

(** Truthiness of a value, as in [status === SUCCESS && result]. *)
Definition truthy (v : json) : bool :=
  match v with
  | JNull => false
  | JBool b => b
  | JNumber lexeme => negb (forallb (fun c => Ascii.eqb c "0" || Ascii.eqb c "." || Ascii.eqb c "-")
                                    (list_ascii_of_string (JS.splitHead (JS.splitHead lexeme "e") "E")))
  | JString s => JS.truthy s
  | JArray _ | JObject _ => true
  end.

Definition dquote : ascii := ascii_of_nat 34.

Definition isDigit (c : ascii) : bool :=
  let n := nat_of_ascii c in Nat.leb 48 n && Nat.leb n 57.

Definition hexValue (c : ascii) : option nat :=
  let n := nat_of_ascii c in
  if Nat.leb 48 n && Nat.leb n 57 then Some (n - 48)%nat
  else if Nat.leb 65 n && Nat.leb n 70 then Some (n - 55)%nat
  else if Nat.leb 97 n && Nat.leb n 102 then Some (n - 87)%nat
  else None.

(** JSON white space: space, tab, line feed, carriage return. *)
Definition isJsonSpace (c : ascii) : bool :=
  let n := nat_of_ascii c in
  Nat.eqb n 32 || Nat.eqb n 9 || Nat.eqb n 10 || Nat.eqb n 13.

Fixpoint skipSpace (s : string) : string :=
  match s with
  | String c rest => if isJsonSpace c then skipSpace rest else s
  | EmptyString => s
  end.

(** Leading decimal digits of [s] and what follows them. *)
Fixpoint digits (s : string) : string * string :=
  match s with
  | String c rest =>
      if isDigit c then let '(d, r) := digits rest in (String c d, r)
      else (EmptyString, s)
  | EmptyString => (EmptyString, s)
  end.

(** The characters of a string literal after its opening quote, up to the
    closing quote.  A [\u] escape above code unit 255 is outside the
    modelled strings and is refused. *)
Fixpoint parseChars (s : string) : option (string * string) :=
  match s with
  | EmptyString => None
  | String c rest =>
      if Ascii.eqb c dquote then Some (EmptyString, rest)
      else if Ascii.eqb c "\" then
        match rest with
        | String e rest' =>
            let continue (a : ascii) (r : string) :=
              match parseChars r with
              | Some (str, r') => Some (String a str, r')
              | None => None
              end in
            if Ascii.eqb e dquote then continue dquote rest'
            else match e with
            | "\"%char => continue "\"%char rest'
            | "/"%char => continue "/"%char rest'
            | "b"%char => continue (ascii_of_nat 8) rest'
            | "f"%char => continue (ascii_of_nat 12) rest'
            | "n"%char => continue (ascii_of_nat 10) rest'
            | "r"%char => continue (ascii_of_nat 13) rest'
            | "t"%char => continue (ascii_of_nat 9) rest'
            | "u"%char =>
                match rest' with
                | String h1 (String h2 (String h3 (String h4 r))) =>
                    match hexValue h1, hexValue h2, hexValue h3, hexValue h4 with
                    | Some O, Some O, Some a, Some b =>
                        continue (ascii_of_nat (16 * a + b)) r
                    | _, _, _, _ => None
                    end
                | _ => None
                end
            | _ => None
            end
        | EmptyString => None
        end
      else if Nat.ltb (nat_of_ascii c) 32 then None
      else
        match parseChars rest with
        | Some (str, r) => Some (String c str, r)
        | None => None
        end
  end.

(** A number token: [-? int frac? exp?]. *)
Definition parseNumber (s : string) : option (string * string) :=
  let '(sign, s1) :=
    match s with
    | String "-" r => ("-", r)
    | _ => (EmptyString, s)
    end in
  let '(int, s2) := digits s1 in
  let intOk :=
    match int with
    | EmptyString => false
    | String "0" (String _ _) => false
    | _ => true
    end in
  if negb intOk then None else
  let frac :=
    match s2 with
    | String "." r =>
        let '(d, r') := digits r in
        match d with
        | EmptyString => None
        | _ => Some ("." +++ d, r')
        end
    | _ => Some (EmptyString, s2)
    end in
  match frac with
  | None => None
  | Some (fr, s3) =>
      let withExp (e : string) (r : string) :=
        let '(sg, r1) :=
          match r with
          | String "+" r' => ("+", r')
          | String "-" r' => ("-", r')
          | _ => (EmptyString, r)
          end in
        let '(d, r2) := digits r1 in
        match d with
        | EmptyString => None
        | _ => Some (sign +++ int +++ fr +++ e +++ sg +++ d, r2)
        end in
      match s3 with
      | String "e" r => withExp "e" r
      | String "E" r => withExp "E" r
      | _ => Some (sign +++ int +++ fr, s3)
      end
  end.

(** [expect lit s]: [s] without its prefix [lit]. *)
Fixpoint expect (lit s : string) : option string :=
  match lit, s with
  | EmptyString, _ => Some s
  | String a l, String b r => if Ascii.eqb a b then expect l r else None
  | String _ _, EmptyString => None
  end.

(** Recursive descent on the JSON grammar; [fuel] bounds the nesting and the
    number of elements and never runs out when it exceeds the input length. *)
Fixpoint parseValue (fuel : nat) (s : string) : option (json * string) :=
  match fuel with
  | O => None
  | S fuel' =>
      match skipSpace s with
      | EmptyString => None
      | String c rest =>
          if Ascii.eqb c dquote then
            match parseChars rest with
            | Some (str, r) => Some (JString str, r)
            | None => None
            end
          else match c with
          | "n"%char => option_map (fun r => (JNull, r)) (expect "ull" rest)
          | "t"%char => option_map (fun r => (JBool true, r)) (expect "rue" rest)
          | "f"%char => option_map (fun r => (JBool false, r)) (expect "alse" rest)
          | "["%char =>
              match skipSpace rest with
              | String "]" r => Some (JArray [], r)
              | _ => option_map (fun '(l, r) => (JArray l, r)) (parseElements fuel' rest)
              end
          | "{"%char =>
              match skipSpace rest with
              | String "}" r => Some (JObject [], r)
              | _ => option_map (fun '(m, r) => (JObject m, r)) (parseMembers fuel' rest [])
              end
          | _ => option_map (fun '(n, r) => (JNumber n, r)) (parseNumber (String c rest))
          end
      end
  end

with parseElements (fuel : nat) (s : string) : option (list json * string) :=
  match fuel with
  | O => None
  | S fuel' =>
      match parseValue fuel' s with
      | None => None
      | Some (v, r) =>
          match skipSpace r with
          | String "," r' =>
              option_map (fun '(l, r2) => (v :: l, r2)) (parseElements fuel' r')
          | String "]" r' => Some ([v], r')
          | _ => None
          end
      end
  end

with parseMembers (fuel : nat) (s : string) (acc : list (string * json))
  : option (list (string * json) * string) :=
  match fuel with
  | O => None
  | S fuel' =>
      match skipSpace s with
      | String q r0 =>
          if negb (Ascii.eqb q dquote) then None else
          match parseChars r0 with
          | None => None
          | Some (key, r1) =>
              match skipSpace r1 with
              | String ":" r2 =>
                  match parseValue fuel' r2 with
                  | None => None
                  | Some (v, r3) =>
                      let acc' := setMember acc key v in
                      match skipSpace r3 with
                      | String "," r4 => parseMembers fuel' r4 acc'
                      | String "}" r4 => Some (acc', r4)
                      | _ => None
                      end
                  end
              | _ => None
              end
          end
      | EmptyString => None
      end
  end.

(** [JSON.parse(text)]; [None] stands for the [SyntaxError] it throws. *)
Definition parse (text : string) : option json :=
  match parseValue (S (String.length text)) text with
  | Some (v, r) =>
      match skipSpace r with
      | EmptyString => Some v
      | _ => None
      end
  | None => None
  end.

End JSON.
Import JSON.

(* ===================================================================== *)
(** ** The browser's [File], types.ts and the SDK's request types *)
(* ===================================================================== *)

Module DOM.

(** What the code reads of a [File]; its content is reached through the
    readers of the [Platform]. *)
Record File := mkFile {
  name : string;
  type : string;
  size : Z;
  lastModified : Z
}.

End DOM.

Module Types.

Record RuleLensItem := mkRuleLensItem {
  term : string;
  definition : string
}.

Record AptusResponse := mkAptusResponse {
  tldr : string;
  ruleLens : list RuleLensItem;
  actionableSteps : list string;
  sourceCitation : string
}.

Record InputState := mkInputState {
  text : string;
  files : list DOM.File;
  language : string
}.

Inductive AppStatus : Type := IDLE | PROCESSING | SUCCESS | ERROR.

Definition AppStatus_eqb (a b : AppStatus) : bool :=
  match a, b with
  | IDLE, IDLE | PROCESSING, PROCESSING | SUCCESS, SUCCESS | ERROR, ERROR => true
  | _, _ => false
  end.

(** Reading a run-time value at the interface [RuleLensItem]: the value must
    be an object whose [term] and [definition] are strings. *)
Definition asRuleLensItem (v : json) : option RuleLensItem :=
  match v with
  | JObject m =>
      match getMember m "term", getMember m "definition" with
      | Some (JString t), Some (JString d) => Some (mkRuleLensItem t d)
      | _, _ => None
      end
  | _ => None
  end.

Definition asString (v : json) : option string :=
  match v with JString s => Some s | _ => None end.

(** [traverse f l]: all the readings, if every one succeeds. *)
Fixpoint traverse {A B} (f : A -> option B) (l : list A) : option (list B) :=
  match l with
  | [] => Some []
  | a :: rest =>
      match f a, traverse f rest with
      | Some b, Some bs => Some (b :: bs)
      | _, _ => None
      end
  end.

(** Reading a run-time value at the interface [AptusResponse]. *)
Definition asAptusResponse (v : json) : option AptusResponse :=
  match v with
  | JObject m =>
      match getMember m "tldr", getMember m "ruleLens",
            getMember m "actionableSteps", getMember m "sourceCitation" with
      | Some (JString t), Some (JArray rl), Some (JArray steps), Some (JString c) =>
          match traverse asRuleLensItem rl, traverse asString steps with
          | Some items, Some strs => Some (mkAptusResponse t items strs c)
          | _, _ => None
          end
      | _, _, _, _ => None
      end
  | _ => None
  end.

(** The value has the shape of an [AptusResponse]. *)
Definition hasAptusResponseShape (v : json) : bool :=
  match asAptusResponse v with Some _ => true | None => false end.

End Types.

(** The parts of the @google/genai interface the service uses. *)
Module GenAI.

Inductive SchemaType : Type := STRING | NUMBER | INTEGER | BOOLEAN | ARRAY | OBJECT.

Inductive Schema : Type :=
| mkSchema (type : SchemaType)
           (description : option string)
           (properties : list (string * Schema))
           (items : option Schema)
           (required : list string).

Inductive Part : Type :=
| InlineData (mimeType data : string)
| TextPart (text : string).

Record GenerateContentParameters := mkRequest {
  model : string;
  role : string;
  parts : list Part;
  systemInstruction : string;
  responseMimeType : string;
  responseSchema : Schema;
  temperature : Q
}.

Record Candidate := mkCandidate { finishReason : option string }.

Record GenerateContentResponse := mkResponse {
  candidates : option (list Candidate);
  text : option string
}.

(** The contract of a response schema: a value conforms when it has the
    schema's type, an object has every required property and each listed
    property it has conforms, and every item of an array conforms. *)
Fixpoint conforms (sch : Schema) (v : json) {struct sch} : bool :=
  match sch with
  | mkSchema ty _ properties items required =>
      match ty, v with
      | STRING, JString _ => true
      | NUMBER, JNumber _ => true
      | INTEGER, JNumber lexeme => forallb (fun c => JSON.isDigit c || Ascii.eqb c "-")
                                           (list_ascii_of_string lexeme)
      | BOOLEAN, JBool _ => true
      | ARRAY, JArray l =>
          match items with
          | Some item => forallb (conforms item) l
          | None => true
          end
      | OBJECT, JObject m =>
          forallb (fun key => match getMember m key with Some _ => true | None => false end)
                  required &&
          (fix props (ps : list (string * Schema)) : bool :=
             match ps with
             | [] => true
             | (key, s) :: rest =>
                 match getMember m key with
                 | Some x => conforms s x
                 | None => true
                 end && props rest
             end) properties
      | _, _ => false
      end
  end.

End GenAI.

(* ===================================================================== *)
(** ** services/gemini.ts: constants and the retry wrapper *)
(* ===================================================================== *)

Module Gemini.

Definition MAX_IMAGE_DIMENSION : number := 1536.
Definition JPEG_QUALITY : number := 0.8.
Definition MAX_RETRIES : Z := 3.
Definition INITIAL_RETRY_DELAY : Z := 1000.

Definition isClientError (error : Error) : bool :=
  messageIncludes error "400" || statusIs error 400.

Definition isQuotaError (error : Error) : bool :=
  messageIncludes error "429" || statusIs error 429.

(** The guard of the [throw error] statement in the handler of
    [callWithRetry]. *)
Definition givesUp (error : Error) (retries : Z) : bool :=
  (isClientError error && negb (isQuotaError error)) || (retries <=? 0).

Section Retry.

Context {W T : Type}.

(** The wrapped operation [fn]: it reads and changes the state of the
    outside world and settles with a value or an error. *)
Variable fn : W -> outcome T * W.

(** [callWithRetry(fn, retries, backoff)].  The state pairs the outside world
    with the effect log. *)
Equations? callWithRetry (retries backoff : Z) (st : W * list effect)
  : outcome T * (W * list effect) by wf (Z.to_nat retries) lt :=
callWithRetry retries backoff (w, log) with fn w => {
  | (Resolved v, w') := (Resolved v, (w', log ++ [Invoke]));
  | (Rejected error, w') with inspect (givesUp error retries) => {
      | exist _ true _ := (Rejected error, (w', log ++ [Invoke]));
      | exist _ false H :=
          callWithRetry (retries - 1) (backoff * 2)
                        (w', log ++ [Invoke; Delay backoff]) } }.
Proof.
  unfold givesUp in H. apply orb_false_iff in H as [_ H].
  apply Z.leb_gt in H. lia.
Qed.

(** [callWithRetry(fn)] with the default arguments. *)
Definition callWithRetryDefault (st : W * list effect)
  : outcome T * (W * list effect) :=
  callWithRetry MAX_RETRIES INITIAL_RETRY_DELAY st.

(** The outside world after [n] invocations of [fn]. *)
Fixpoint after (n : nat) (w : W) : W :=
  match n with
  | O => w
  | S k => snd (fn (after k w))
  end.

End Retry.

(** An error the handler of [callWithRetry] does not rethrow while retries
    are left. *)
Definition retryable (error : Error) : bool :=
  negb (isClientError error && negb (isQuotaError error)).

(** The effects of [n] failed attempts, each followed by its wait. *)
Fixpoint failedAttempts (n : nat) (backoff : Z) : list effect :=
  match n with
  | O => []
  | S k => Invoke :: Delay backoff :: failedAttempts k (backoff * 2)
  end.

(** Number of invocations recorded in a log. *)
Definition invocations (log : list effect) : nat :=
  List.length (List.filter (fun ev => match ev with Invoke => true | _ => false end) log).


(* --------------------------------------------------------------------- *)
(** *** File preprocessing *)
(* --------------------------------------------------------------------- *)

Inductive PartType : Type := inline_data | text_content.

Record ProcessedPart := mkProcessedPart {
  type : PartType;
  mimeType : option string;  (* For inline_data *)
  data : option string;      (* For inline_data (base64) *)
  text : option string       (* For text_content *)
}.

(** The browser and SDK services behind the service layer.  [W] is the state
    of the remote model service. *)
Record Platform (W : Type) := mkPlatform {
  (** [FileReader.readAsText]: the text of the file, or the reader's error. *)
  readAsText : DOM.File -> outcome string;
  (** [FileReader.readAsDataURL]: the file's bytes as a base64 data URL. *)
  readAsDataURL : DOM.File -> outcome string;
  (** Loading the file into an [Image]: its [width] and [height] when
      [onload] fires, [None] when [onerror] fires. *)
  imageSize : DOM.File -> option (Z * Z);
  (** Whether [canvas.getContext('2d')] yields a context. *)
  canvasContext : bool;
  (** [canvas.toDataURL(type, quality)] after the image has been drawn on a
      canvas of the given width and height. *)
  toDataURL : DOM.File -> Z -> Z -> string -> number -> string;
  (** The order in which the promises handed to [Promise.all] settle, as
      indices into the list. *)
  settleOrder : list nat;
  (** [process.env.API_KEY] *)
  API_KEY : option string;
  (** [ai.models.generateContent] *)
  generateContent : GenAI.GenerateContentParameters -> W ->
                    outcome GenAI.GenerateContentResponse * W;
  (** [JSON.parse]; it rejects with the [SyntaxError] it throws. *)
  JSON_parse : string -> outcome json
}.
Arguments readAsText {W}.
Arguments readAsDataURL {W}.
Arguments imageSize {W}.
Arguments canvasContext {W}.
Arguments toDataURL {W}.
Arguments settleOrder {W}.
Arguments API_KEY {W}.
Arguments generateContent {W}.
Arguments JSON_parse {W}.

(** Sequencing of awaited steps: a rejection skips the rest. *)
Definition bind {A B} (o : outcome A) (k : A -> outcome B) : outcome B :=
  match o with
  | Resolved a => k a
  | Rejected e => Rejected e
  end.
Notation "x <- o ;; k" := (bind o (fun x => k))
  (at level 61, o at next level, right associativity).
Notation "' p <- o ;; k" := (bind o (fun p => k))
  (at level 61, p pattern, o at next level, right associativity).

(** The resizing step of [compressImage]: the new [width] and [height],
    from [img.width] and [img.height]. *)
Definition scaleDown (width height : number) : number * number :=
  if gtb width height then
    if gtb width MAX_IMAGE_DIMENSION
    then (MAX_IMAGE_DIMENSION, height * (MAX_IMAGE_DIMENSION / width))%float
    else (width, height)
  else
    if gtb height MAX_IMAGE_DIMENSION
    then (width * (MAX_IMAGE_DIMENSION / height), MAX_IMAGE_DIMENSION)%float
    else (width, height).

Section WithPlatform.

Context {W : Type}.
Variable P : Platform W.

Definition compressImage (file : DOM.File) : outcome string :=
  match imageSize P file with
  | Some (imgWidth, imgHeight) =>
      let '(width, height) := scaleDown (ofInteger imgWidth) (ofInteger imgHeight) in
      let canvasWidth := toUnsignedLong width in
      let canvasHeight := toUnsignedLong height in
      if negb (canvasContext P)
      then Rejected (newError "Browser does not support canvas image processing.")
      else Resolved (toDataURL P file canvasWidth canvasHeight "image/jpeg" JPEG_QUALITY)
  | None => Rejected (newError "Failed to load image for optimization.")
  end.

Definition readFileAsBase64 (file : DOM.File) : outcome string :=
  readAsDataURL P file.

Definition readFileAsText (file : DOM.File) : outcome string :=
  readAsText P file.

(** [parseDataUrl(dataUrl)] yields the pair [(mimeType, data)]. *)
Definition parseDataUrl (dataUrl : string) : outcome (string * string) :=
  match JS.indexOf dataUrl "," with
  | None => Rejected (newError "Invalid Data URL format")
  | Some commaIndex =>
      let mimeType := JS.splitHead (JS.substring dataUrl 5 commaIndex) ";" in
      let data := JS.substringFrom dataUrl (commaIndex + 1) in
      Resolved (mimeType, data)
  end.

Definition newline : string := String (ascii_of_nat 10) EmptyString.

Definition couldNotProcess (file : DOM.File) : Error :=
  newError ("Could not process " +++ DOM.name file +++ ". Please try a different file.").

(** The [try] block of the function mapped over the files. *)
Definition processFileBody (file : DOM.File) : outcome ProcessedPart :=
  if String.eqb (DOM.type file) "text/plain" then
    textContent <- readFileAsText file ;;
    Resolved {| type := text_content;
                mimeType := None;
                data := None;
                text := Some ("[Attached File: " +++ DOM.name file +++ "]" +++ newline
                              +++ textContent +++ newline +++ "---") |}
  else if JS.startsWith (DOM.type file) "image/" then
    dataUrl <- compressImage file ;;
    '(mime, dat) <- parseDataUrl dataUrl ;;
    Resolved {| type := inline_data; mimeType := Some mime; data := Some dat; text := None |}
  else
    dataUrl <- readFileAsBase64 file ;;
    '(mime, dat) <- parseDataUrl dataUrl ;;
    Resolved {| type := inline_data; mimeType := Some mime; data := Some dat; text := None |}.

(** The function mapped over the files: whatever the [try] block throws is
    replaced by the error that names the file. *)
Definition processFile (file : DOM.File) : outcome ProcessedPart :=
  match processFileBody file with
  | Resolved part => Resolved part
  | Rejected _ => Rejected (couldNotProcess file)
  end.

End WithPlatform.

(** The values of the promises that resolved, in the order of the promises. *)
Fixpoint resolvedValues {A} (rs : list (outcome A)) : list A :=
  match rs with
  | [] => []
  | Resolved a :: rest => a :: resolvedValues rest
  | Rejected _ :: rest => resolvedValues rest
  end.

(** The error of the first promise in [order] that rejected. *)
Fixpoint firstRejected {A} (order : list nat) (rs : list (outcome A)) : option Error :=
  match order with
  | [] => None
  | i :: rest =>
      match nth_error rs i with
      | Some (Rejected e) => Some e
      | _ => firstRejected rest rs
      end
  end.

(** [Promise.all(rs)]: the error of the promise that rejects first, or, when
    none rejects, the values in the order of the promises.  [order] lists
    the promises as they settle; promises it leaves out settle after it, in
    list order. *)
Definition Promise_all {A} (order : list nat) (rs : list (outcome A)) : outcome (list A) :=
  match firstRejected (order ++ seq 0 (List.length rs)) rs with
  | Some e => Rejected e
  | None => Resolved (resolvedValues rs)
  end.

Definition processFilesForGemini {W} (P : Platform W) (files : list DOM.File)
  : outcome (list ProcessedPart) :=
  Promise_all (settleOrder P) (List.map (processFile P) files).

(* --------------------------------------------------------------------- *)
(** *** The request and [analyzeDocument] *)
(* --------------------------------------------------------------------- *)

Definition fieldSchema (ty : GenAI.SchemaType) (description : option string) : GenAI.Schema :=
  GenAI.mkSchema ty description [] None [].

Definition responseSchema : GenAI.Schema :=
  GenAI.mkSchema GenAI.OBJECT None
    [ ("tldr",
       fieldSchema GenAI.STRING
         (Some "A 1-2 sentence summary of the input's meaning and required action in plain language."));
      ("ruleLens",
       GenAI.mkSchema GenAI.ARRAY
         (Some "Define the 2-3 most complex terms from the input.")
         []
         (Some (GenAI.mkSchema GenAI.OBJECT None
                  [ ("term", fieldSchema GenAI.STRING None);
                    ("definition",
                     fieldSchema GenAI.STRING
                       (Some "How this term functions within the document's context.")) ]
                  None
                  ["term"; "definition"]))
         []);
      ("actionableSteps",
       GenAI.mkSchema GenAI.ARRAY
         (Some "A clear list of the exact next steps (deadlines, required documents).")
         []
         (Some (fieldSchema GenAI.STRING None))
         []);
      ("sourceCitation",
       fieldSchema GenAI.STRING
         (Some "Cite the specific section/page used from the input.")) ]
    None
    ["tldr"; "ruleLens"; "actionableSteps"; "sourceCitation"].

Definition systemInstruction (targetLanguage : string) : string :=
  newline +++
  "Role: You are Aptus, a highly specialized, empathetic, and multilingual legal interpreter." +++ newline +++
  "Core Task: Convert complex legal/bureaucratic input (text or image) into simplified, actionable, and verified information." +++ newline +++
  newline +++
  "Operational Rules:" +++ newline +++
  "1. STRICTLY and EXCLUSIVELY use the provided input (text or images) as your sole source of truth." +++ newline +++
  "2. DO NOT use general internet knowledge to fill gaps. If information is missing, state it clearly in the output." +++ newline +++
  "3. NEVER offer legal advice. You are an interpreter, not a lawyer." +++ newline +++
  "4. If the input is illegible or not a document (e.g., a random photo), return a polite error message in the 'tldr' field explaining why it cannot be analyzed." +++ newline +++
  newline +++
  "Output Requirement:" +++ newline +++
  "- Provide the output in the target language: " +++ targetLanguage +++ "." +++ newline +++
  "- Structure the response exactly according to the requested JSON schema." +++ newline +++
  "- For " +++ dq +++ "Source Citation" +++ dq +++
  ", strictly cite where in the provided text/image the information comes from (e.g., " +++
  dq +++ "Page 1, Paragraph 2" +++ dq +++ ")." +++ newline.

Definition PartType_eqb (a b : PartType) : bool :=
  match a, b with
  | inline_data, inline_data | text_content, text_content => true
  | _, _ => false
  end.

(** What one processed file adds to [parts] in the [forEach] loop. *)
Definition filePart (file : ProcessedPart) : list GenAI.Part :=
  if PartType_eqb (type file) inline_data
     && truthyOpt (data file) && truthyOpt (mimeType file) then
    match mimeType file, data file with
    | Some m, Some d => [GenAI.InlineData m d]
    | _, _ => []
    end
  else if PartType_eqb (type file) text_content && truthyOpt (text file) then
    match text file with
    | Some t => [GenAI.TextPart t]
    | None => []
    end
  else [].

(** The parts contributed by the processed files. *)
Definition fileParts (files : list ProcessedPart) : list GenAI.Part :=
  List.flat_map filePart files.

(** The part contributed by the typed text. *)
Definition textPart (text : string) : list GenAI.Part :=
  if JS.truthy (JS.trim text)
  then [GenAI.TextPart ("User Text Input:" +++ newline +++ text)]
  else [].

Definition buildParts (text : string) (files : list ProcessedPart) : list GenAI.Part :=
  fileParts files ++ textPart text.

Definition buildRequest (parts : list GenAI.Part) (targetLanguage : string)
  : GenAI.GenerateContentParameters :=
  {| GenAI.model := "gemini-2.5-flash";
     GenAI.role := "user";
     GenAI.parts := parts;
     GenAI.systemInstruction := systemInstruction targetLanguage;
     GenAI.responseMimeType := "application/json";
     GenAI.responseSchema := responseSchema;
     GenAI.temperature := 1 # 10 |}.

(** The checks on a response inside the [try] block. *)
Definition checkFinishReason (response : GenAI.GenerateContentResponse) : outcome unit :=
  let candidate :=
    match GenAI.candidates response with
    | Some (c :: _) => Some c
    | _ => None
    end in
  match candidate with
  | Some c =>
      match GenAI.finishReason c with
      | Some reason =>
          if JS.truthy reason && negb (String.eqb reason "STOP") then
            if String.eqb reason "SAFETY" then
              Rejected (newError "Analysis blocked. The document contains content flagged as unsafe or sensitive.")
            else if String.eqb reason "RECITATION" then
              Rejected (newError "Analysis blocked due to copyright content restrictions.")
            else
              Rejected (newError ("Analysis stopped unexpectedly (Reason: " +++ reason
                                  +++ "). Please try a clearer document."))
          else Resolved tt
      | None => Resolved tt
      end
  | None => Resolved tt
  end.

(** The [catch] block of [analyzeDocument]: the error it throws in place of
    the one it caught. *)
Definition explain (error : Error) : Error :=
  if messageIncludes error "400" then
    newError "The document is too large or contains prohibited content."
  else if messageIncludes error "429" then
    newError "Service is currently busy. Please try again in a moment."
  else if messageIncludes error "500" || messageIncludes error "503" then
    newError "Gemini service is temporarily unavailable. Please try again."
  else error.

Section Analyze.

Context {W : Type}.
Variable P : Platform W.

(** What follows the model call inside the [try] block. *)
Definition readResponse (response : GenAI.GenerateContentResponse) : outcome json :=
  _ <- checkFinishReason response ;;
  match GenAI.text response with
  | Some responseText =>
      if negb (JS.truthy responseText)
      then Rejected (newError "The AI returned an empty response. Please try again.")
      else JSON_parse P responseText
  | None => Rejected (newError "The AI returned an empty response. Please try again.")
  end.

Definition analyzeDocument (text : string) (files : list ProcessedPart)
  (targetLanguage : string) (st : W * list effect)
  : outcome json * (W * list effect) :=
  if negb (truthyOpt (API_KEY P)) then
    (Rejected (newError "System Error: API Key is missing. Please check configuration."), st)
  else
    let parts := buildParts text files in
    if Nat.eqb (List.length parts) 0 then
      (Rejected (newError "No input provided. Please upload a file or enter text."), st)
    else
      let '(called, st') :=
        callWithRetryDefault (generateContent P (buildRequest parts targetLanguage)) st in
      match (response <- called ;; readResponse response) with
      | Resolved v => (Resolved v, st')
      | Rejected error => (Rejected (explain error), st')
      end.

End Analyze.

End Gemini.

(* ===================================================================== *)
(** ** components/InputCard.tsx *)
(* ===================================================================== *)

Module InputCard.

Definition MAX_FILE_SIZE_MB : Z := 20.
Definition MAX_FILE_SIZE_BYTES : Z := MAX_FILE_SIZE_MB * 1024 * 1024.

(** The decimal text of an integer, as a template literal prints it. *)
Definition numberToString (n : Z) : string :=
  NilZero.string_of_int (Z.to_int n).

Definition getFileId (file : DOM.File) : string :=
  DOM.name file +++ "-" +++ numberToString (DOM.size file)
                +++ "-" +++ numberToString (DOM.lastModified file).

(** The component's own state.  [uploadProgress] maps file ids to a
    percentage; the first entry for an id is the current one. *)
Record CardState := mkCard {
  dragActive : bool;
  isCameraOpen : bool;
  validationErrors : list string;
  cameraError : option string;
  uploadProgress : list (string * number)
}.

Definition initialCard : CardState :=
  {| dragActive := false; isCameraOpen := false; validationErrors := [];
     cameraError := None; uploadProgress := [] |}.

(** [uploadProgress[id]] *)
Fixpoint progressOf (up : list (string * number)) (id : string) : option number :=
  match up with
  | [] => None
  | (k, v) :: rest => if String.eqb k id then Some v else progressOf rest id
  end.

(** [{ ...prev, [id]: v }] *)
Definition setProgress (up : list (string * number)) (id : string) (v : number) : list (string * number) :=
  (id, v) :: up.

(** [delete next[id]] *)
Definition deleteProgress (up : list (string * number)) (id : string) : list (string * number) :=
  List.filter (fun kv => negb (String.eqb (fst kv) id)) up.

(** [uploadProgress[id] ?? 0] *)
Definition progressOrZero (up : list (string * number)) (id : string) : number :=
  match progressOf up id with Some v => v | None => 0%float end.

(** The synchronous part of [simulateUpload]. *)
Definition simulateUpload (file : DOM.File) (up : list (string * number)) : list (string * number) :=
  setProgress up (getFileId file) 0%float.

Definition sizeFactor (file : DOM.File) : number :=
  Math_min (ofInteger (DOM.size file) / (1024 * 1024))%float 20%float.

Definition increment (file : DOM.File) : number :=
  (100 / (20 + sizeFactor file * 5))%float.

(** One firing of the interval started by [simulateUpload]; [random] is the
    value of [Math.random()]. *)
Definition uploadTick (file : DOM.File) (random : number) (up : list (string * number))
  : list (string * number) :=
  let fileId := getFileId file in
  let current := progressOrZero up fileId in
  if geb current 100%float then setProgress up fileId 100%float
  else setProgress up fileId
         (Math_min (current + increment file + random * 5)%float 100%float).

(** The local variables of [handleFiles] while its loop runs, with the
    queued progress updates. *)
Record Validation := mkValidation {
  validFiles : list DOM.File;
  errors : list string;
  progress : list (string * number)
}.

Definition exceedsMessage (file : DOM.File) : string :=
  dq +++ DOM.name file +++ dq +++ " exceeds " +++ numberToString MAX_FILE_SIZE_MB +++ "MB.".

Definition unsupportedMessage (file : DOM.File) : string :=
  dq +++ DOM.name file +++ dq +++ " is not supported.".

(** The body of the [forEach] loop of [handleFiles]. *)
Definition validateFile (acc : Validation) (file : DOM.File) : Validation :=
  if DOM.size file >? MAX_FILE_SIZE_BYTES then
    {| validFiles := validFiles acc;
       errors := errors acc ++ [exceedsMessage file];
       progress := progress acc |}
  else
    let isImage := JS.startsWith (DOM.type file) "image/" in
    let isPdf := String.eqb (DOM.type file) "application/pdf" in
    let isTxt := String.eqb (DOM.type file) "text/plain" in
    if isImage || isPdf || isTxt then
      {| validFiles := validFiles acc ++ [file];
         errors := errors acc;
         progress := simulateUpload file (progress acc) |}
    else
      {| validFiles := validFiles acc;
         errors := errors acc ++ [unsupportedMessage file];
         progress := progress acc |}.

(** [handleFiles(files)], on the component's state and the [inputState] it
    shares with the application. *)
Definition handleFiles (files : list DOM.File) (st : CardState * Types.InputState)
  : CardState * Types.InputState :=
  let '(card, inputState) := st in
  let acc := List.fold_left validateFile files
               {| validFiles := []; errors := []; progress := uploadProgress card |} in
  let card' :=
    {| dragActive := dragActive card;
       isCameraOpen := isCameraOpen card;
       validationErrors :=
         if Nat.ltb 0 (List.length (errors acc)) then errors acc else [];
       cameraError := cameraError card;
       uploadProgress := progress acc |} in
  let inputState' :=
    if Nat.ltb 0 (List.length (validFiles acc)) then
      {| Types.text := Types.text inputState;
         Types.files := Types.files inputState ++ validFiles acc;
         Types.language := Types.language inputState |}
    else inputState in
  (card', inputState').

(** [prev.files.filter((_, i) => i !== index)] *)
Fixpoint removeAt {A} (index : nat) (l : list A) : list A :=
  match l, index with
  | [], _ => []
  | _ :: rest, O => rest
  | a :: rest, S i => a :: removeAt i rest
  end.

Definition removeFile (index : nat) (st : CardState * Types.InputState)
  : CardState * Types.InputState :=
  let '(card, inputState) := st in
  let card' :=
    match nth_error (Types.files inputState) index with
    | Some fileToRemove =>
        {| dragActive := dragActive card;
           isCameraOpen := isCameraOpen card;
           validationErrors := validationErrors card;
           cameraError := cameraError card;
           uploadProgress := deleteProgress (uploadProgress card) (getFileId fileToRemove) |}
    | None => card
    end in
  (card',
   {| Types.text := Types.text inputState;
      Types.files := removeAt index (Types.files inputState);
      Types.language := Types.language inputState |}).

(** [handleDrag(e)], by the type of the event. *)
Definition handleDrag (eventType : string) (card : CardState) : CardState :=
  let setDragActive (b : bool) :=
    {| dragActive := b;
       isCameraOpen := isCameraOpen card;
       validationErrors := validationErrors card;
       cameraError := cameraError card;
       uploadProgress := uploadProgress card |} in
  if String.eqb eventType "dragenter" || String.eqb eventType "dragover"
  then setDragActive true
  else if String.eqb eventType "dragleave" then setDragActive false
  else card.

(** [handleDrop(e)] with the dropped files. *)
Definition handleDrop (dropped : list DOM.File) (st : CardState * Types.InputState)
  : CardState * Types.InputState :=
  let '(card, inputState) := st in
  let card0 :=
    {| dragActive := false;
       isCameraOpen := isCameraOpen card;
       validationErrors := validationErrors card;
       cameraError := cameraError card;
       uploadProgress := uploadProgress card |} in
  match dropped with
  | _ :: _ => handleFiles dropped (card0, inputState)
  | [] => (card0, inputState)
  end.

Definition setIsCameraOpen (b : bool) (card : CardState) : CardState :=
  {| dragActive := dragActive card;
     isCameraOpen := b;
     validationErrors := validationErrors card;
     cameraError := cameraError card;
     uploadProgress := uploadProgress card |}.

Definition setCameraError (e : option string) (card : CardState) : CardState :=
  {| dragActive := dragActive card;
     isCameraOpen := isCameraOpen card;
     validationErrors := validationErrors card;
     cameraError := e;
     uploadProgress := uploadProgress card |}.

Definition toggleCamera (card : CardState) : CardState :=
  {| dragActive := dragActive card;
     isCameraOpen := negb (isCameraOpen card);
     validationErrors := [];
     cameraError := None;
     uploadProgress := uploadProgress card |}.

(** [capturePhoto], once the canvas has produced the photo as a file. *)
Definition capturePhoto (photo : DOM.File) (st : CardState * Types.InputState)
  : CardState * Types.InputState :=
  let '(card', inputState') := handleFiles [photo] st in
  (setIsCameraOpen false card', inputState').

Definition hasContent (inputState : Types.InputState) : bool :=
  Nat.ltb 0 (String.length (JS.trim (Types.text inputState)))
  || Nat.ltb 0 (List.length (Types.files inputState)).

Definition isUploading (card : CardState) (inputState : Types.InputState) : bool :=
  List.existsb (fun f => ltb (progressOrZero (uploadProgress card) (getFileId f)) 100%float)
               (Types.files inputState).

(** The [disabled] attribute of the submit button. *)
Definition submitDisabled (card : CardState) (inputState : Types.InputState)
  (isLoading : bool) : bool :=
  negb (hasContent inputState) || isLoading || isUploading card inputState.

End InputCard.

(* ===================================================================== *)
(** ** App.tsx *)
(* ===================================================================== *)

Module App.
Import Types.

(** The state hooks of [App].  [result] holds a run-time value; [JNull] is
    [null]. *)
Record AppState := mkApp {
  status : AppStatus;
  inputState : InputState;
  result : json;
  errorMsg : string;
  showPrivacy : bool;
  isDarkMode : bool
}.

(** The state at mount; the theme comes from the stored preference. *)
Definition initialApp (dark : bool) : AppState :=
  {| status := IDLE;
     inputState := {| text := ""; files := []; language := "English" |};
     result := JNull;
     errorMsg := "";
     showPrivacy := false;
     isDarkMode := dark |}.

Definition toggleTheme (app : AppState) : AppState :=
  {| status := status app; inputState := inputState app; result := result app;
     errorMsg := errorMsg app; showPrivacy := showPrivacy app;
     isDarkMode := negb (isDarkMode app) |}.

Definition setShowPrivacy (b : bool) (app : AppState) : AppState :=
  {| status := status app; inputState := inputState app; result := result app;
     errorMsg := errorMsg app; showPrivacy := b; isDarkMode := isDarkMode app |}.

(** [setInputState(update)] *)
Definition setInputState (update : InputState -> InputState) (app : AppState) : AppState :=
  {| status := status app; inputState := update (inputState app); result := result app;
     errorMsg := errorMsg app; showPrivacy := showPrivacy app;
     isDarkMode := isDarkMode app |}.

(** [handleSubmit] up to its first [await]. *)
Definition handleSubmitBegin (app : AppState) : AppState :=
  {| status := PROCESSING; inputState := inputState app; result := JNull;
     errorMsg := ""; showPrivacy := showPrivacy app; isDarkMode := isDarkMode app |}.

Definition defaultErrorMsg : string :=
  "An unexpected error occurred while analyzing the document.".

(** [err.message || "An unexpected error ..."] *)
Definition errorText (err : Error) : string :=
  match message err with
  | Some m => if JS.truthy m then m else defaultErrorMsg
  | None => defaultErrorMsg
  end.

(** [handleSubmit] after the awaited work has settled with [o]: the end of
    the [try] block, or the [catch] block. *)
Definition handleSubmitSettle (o : outcome json) (app : AppState) : AppState :=
  match o with
  | Resolved response =>
      {| status := SUCCESS; inputState := inputState app; result := response;
         errorMsg := errorMsg app; showPrivacy := showPrivacy app;
         isDarkMode := isDarkMode app |}
  | Rejected err =>
      {| status := ERROR; inputState := inputState app; result := result app;
         errorMsg := errorText err; showPrivacy := showPrivacy app;
         isDarkMode := isDarkMode app |}
  end.

Section WithPlatform.

Context {W : Type}.
Variable P : Gemini.Platform W.

(** The awaited work of [handleSubmit] on the input it captured. *)
Definition submission (input : InputState) (st : W * list effect)
  : outcome json * (W * list effect) :=
  match Gemini.processFilesForGemini P (files input) with
  | Resolved processedFiles =>
      Gemini.analyzeDocument P (text input) processedFiles (language input) st
  | Rejected err => (Rejected err, st)
  end.

(** [handleSubmit], run to completion with no other event in between. *)
Definition handleSubmit (app : AppState) (st : W * list effect)
  : AppState * (W * list effect) :=
  let '(o, st') := submission (inputState app) st in
  (handleSubmitSettle o (handleSubmitBegin app), st').

End WithPlatform.

Definition handleReset (app : AppState) : AppState :=
  {| status := IDLE;
     inputState := {| text := ""; files := []; language := language (inputState app) |};
     result := JNull;
     errorMsg := errorMsg app;
     showPrivacy := showPrivacy app;
     isDarkMode := isDarkMode app |}.

(* --------------------------------------------------------------------- *)
(** *** The page as a transition system *)
(* --------------------------------------------------------------------- *)

(** The application state, the state of the input card, and the analysis
    requests that have been started and have not settled, each with the
    input it captured.  An event is handled to its end, and the page is
    rendered again, before the next event is taken, as React does for clicks
    and for the continuation of an awaited promise. *)
Record Page := mkPage {
  app : AppState;
  card : InputCard.CardState;
  outstanding : list InputState
}.

Definition initialPage (dark : bool) : Page :=
  {| app := initialApp dark; card := InputCard.initialCard; outstanding := [] |}.

(** What the user and the browser can do to the page. *)
Inductive Event : Type :=
| ClickSubmit
| RequestSettles (index : nat) (o : outcome json)
| ClickAnalyzeNew
| TypeText (s : string)
| ChooseLanguage (lang : string)
| AddFiles (fs : list DOM.File)
| ClickRemoveFile (index : nat)
| UploadTicks (file : DOM.File) (random : number)
| Drag (eventType : string)
| Drop (fs : list DOM.File)
| ClickCamera
| CloseCamera
| CameraFails (msg : string)
| CapturePhoto (photo : DOM.File)
| ClickTheme
| SetPrivacy (b : bool).

Definition isLoading (a : AppState) : bool := AppStatus_eqb (status a) PROCESSING.

(** One event.  [None]: the control that raises the event is disabled or not
    rendered in this state. *)
Definition step (p : Page) (ev : Event) : option Page :=
  match ev with
  | ClickSubmit =>
      if InputCard.submitDisabled (card p) (inputState (app p)) (isLoading (app p))
      then None
      else Some {| app := handleSubmitBegin (app p);
                   card := card p;
                   outstanding := outstanding p ++ [inputState (app p)] |}
  | RequestSettles index o =>
      match nth_error (outstanding p) index with
      | Some _ =>
          Some {| app := handleSubmitSettle o (app p);
                  card := card p;
                  outstanding := InputCard.removeAt index (outstanding p) |}
      | None => None
      end
  | ClickAnalyzeNew =>
      if AppStatus_eqb (status (app p)) SUCCESS && JSON.truthy (result (app p))
      then Some {| app := handleReset (app p); card := card p;
                   outstanding := outstanding p |}
      else None
  | TypeText s =>
      Some {| app := setInputState
                       (fun prev => {| text := s; files := files prev;
                                       language := language prev |}) (app p);
              card := card p; outstanding := outstanding p |}
  | ChooseLanguage lang =>
      Some {| app := setInputState
                       (fun prev => {| text := text prev; files := files prev;
                                       language := lang |}) (app p);
              card := card p; outstanding := outstanding p |}
  | AddFiles fs =>
      if InputCard.isCameraOpen (card p) then None else
      let '(card', input') := InputCard.handleFiles fs (card p, inputState (app p)) in
      Some {| app := setInputState (fun _ => input') (app p);
              card := card'; outstanding := outstanding p |}
  | ClickRemoveFile index =>
      match nth_error (files (inputState (app p))) index with
      | Some f =>
          if ltb (InputCard.progressOrZero (InputCard.uploadProgress (card p))
                                           (InputCard.getFileId f)) 100%float
          then None
          else
            let '(card', input') := InputCard.removeFile index (card p, inputState (app p)) in
            Some {| app := setInputState (fun _ => input') (app p);
                    card := card'; outstanding := outstanding p |}
      | None => None
      end
  | UploadTicks file random =>
      Some {| app := app p;
              card := {| InputCard.dragActive := InputCard.dragActive (card p);
                         InputCard.isCameraOpen := InputCard.isCameraOpen (card p);
                         InputCard.validationErrors := InputCard.validationErrors (card p);
                         InputCard.cameraError := InputCard.cameraError (card p);
                         InputCard.uploadProgress :=
                           InputCard.uploadTick file random (InputCard.uploadProgress (card p)) |};
              outstanding := outstanding p |}
  | Drag eventType =>
      if InputCard.isCameraOpen (card p) then None
      else Some {| app := app p; card := InputCard.handleDrag eventType (card p);
                   outstanding := outstanding p |}
  | Drop fs =>
      if InputCard.isCameraOpen (card p) then None
      else
        let '(card', input') := InputCard.handleDrop fs (card p, inputState (app p)) in
        Some {| app := setInputState (fun _ => input') (app p);
                card := card'; outstanding := outstanding p |}
  | ClickCamera =>
      Some {| app := app p; card := InputCard.toggleCamera (card p);
              outstanding := outstanding p |}
  | CloseCamera =>
      if InputCard.isCameraOpen (card p)
      then Some {| app := app p; card := InputCard.setIsCameraOpen false (card p);
                   outstanding := outstanding p |}
      else None
  | CameraFails msg =>
      if InputCard.isCameraOpen (card p)
      then Some {| app := app p; card := InputCard.setCameraError (Some msg) (card p);
                   outstanding := outstanding p |}
      else None
  | CapturePhoto photo =>
      if InputCard.isCameraOpen (card p)
      then
        let '(card', input') := InputCard.capturePhoto photo (card p, inputState (app p)) in
        Some {| app := setInputState (fun _ => input') (app p);
                card := card'; outstanding := outstanding p |}
      else None
  | ClickTheme =>
      Some {| app := toggleTheme (app p); card := card p; outstanding := outstanding p |}
  | SetPrivacy b =>
      Some {| app := setShowPrivacy b (app p); card := card p;
              outstanding := outstanding p |}
  end.

(** The pages the application can be in. *)
Inductive reachable (dark : bool) : Page -> Prop :=
| reachable_initial : reachable dark (initialPage dark)
| reachable_step p ev p' :
    reachable dark p -> step p ev = Some p' -> reachable dark p'.

End App.

(* ===================================================================== *)
(** ** Sample operations and platforms *)
(* ===================================================================== *)

Module Samples.
Import Gemini.

Definition forbidden : Error := mkError (Some "403 Forbidden") (Some 403).

(** An operation whose first call is refused with HTTP 403 and whose later
    calls succeed; the world counts the calls. *)
Definition forbiddenThenOk (w : nat) : outcome unit * nat :=
  match w with
  | O => (Rejected forbidden, S w)
  | S _ => (Resolved tt, S w)
  end.

(** An operation that fails with HTTP 503 on every call; the world counts the
    calls. *)
Definition alwaysUnavailable (w : nat) : outcome unit * nat :=
  (Rejected (mkError (Some "503 Service Unavailable") (Some 503)), S w).

(** [JSON.parse] by the reference parser. *)
Definition jsonParse (text : string) : outcome json :=
  match JSON.parse text with
  | Some v => Resolved v
  | None => Rejected (mkError (Some "Unexpected token in JSON") None)
  end.

Definition notes : DOM.File := DOM.mkFile "notes.txt" "text/plain" 21 0.
Definition scan : DOM.File := DOM.mkFile "scan.png" "image/png" 4000000 0.
Definition lease : DOM.File := DOM.mkFile "lease.pdf" "application/pdf" 120000 0.
Definition broken : DOM.File := DOM.mkFile "broken.pdf" "application/pdf" 10 0.
Definition movie : DOM.File := DOM.mkFile "movie.mp4" "video/mp4" 5000000 0.
Definition huge : DOM.File := DOM.mkFile "huge.pdf" "application/pdf" 20971521 0.

(** A browser in which [notes], [scan] and [lease] can be read and nothing
    else, and a model service that answers every request with [reply]; the
    world counts the requests. *)
Definition platform (key : option string) (reply : GenAI.GenerateContentResponse)
  : Platform nat :=
  {| readAsText := fun f =>
       if String.eqb (DOM.name f) "notes.txt" then Resolved "Rent is due on May 1."
       else Rejected (mkError None None);
     readAsDataURL := fun f =>
       if String.eqb (DOM.name f) "lease.pdf"
       then Resolved "data:application/pdf;base64,JVBERi0xLjQ="
       else Rejected (mkError None None);
     imageSize := fun f =>
       if String.eqb (DOM.name f) "scan.png" then Some (3000, 2000) else None;
     canvasContext := true;
     toDataURL := fun _ _ _ mime _ => "data:" +++ mime +++ ";base64,/9j/4AAQSkZJRg==";
     settleOrder := [];
     API_KEY := key;
     generateContent := fun _ w => (Resolved reply, S w);
     JSON_parse := jsonParse |}.

Definition stopped (responseText : string) : GenAI.GenerateContentResponse :=
  {| GenAI.candidates := Some [ {| GenAI.finishReason := Some "STOP" |} ];
     GenAI.text := Some responseText |}.

(** A JSON text with a summary and nothing else: an object whose only member
    is [tldr]. *)
Definition summaryOnly : string :=
  "{" +++ dq +++ "tldr" +++ dq +++ ":" +++ dq +++ "A lease." +++ dq +++ "}".

Definition quoted (s : string) : string := dq +++ s +++ dq.

(** A JSON text with all four fields. *)
Definition fullAnswer : string :=
  "{" +++ quoted "tldr" +++ ":" +++ quoted "A lease." +++ ","
      +++ quoted "ruleLens" +++ ":[{" +++ quoted "term" +++ ":" +++ quoted "Lessee" +++ ","
      +++ quoted "definition" +++ ":" +++ quoted "The tenant." +++ "}],"
      +++ quoted "actionableSteps" +++ ":[" +++ quoted "Pay the rent by May 1." +++ "],"
      +++ quoted "sourceCitation" +++ ":" +++ quoted "Page 1, Paragraph 2" +++ "}".

Definition fullAnswerValue : json :=
  JObject [ ("tldr", JString "A lease.");
            ("ruleLens", JArray [JObject [("term", JString "Lessee");
                                          ("definition", JString "The tenant.")]]);
            ("actionableSteps", JArray [JString "Pay the rent by May 1."]);
            ("sourceCitation", JString "Page 1, Paragraph 2") ].

(** The application after the user has typed a question and attached a file
    that cannot be read. *)
Definition pendingApp : App.AppState :=
  {| App.status := Types.IDLE;
     App.inputState := {| Types.text := "What does this clause mean?";
                          Types.files := [broken];
                          Types.language := "English" |};
     App.result := JNull; App.errorMsg := ""; App.showPrivacy := false;
     App.isDarkMode := true |}.

(** The page after the user has typed a question and clicked the submit
    button. *)
Definition submittedPage : App.Page :=
  {| App.app :=
       {| App.status := Types.PROCESSING;
          App.inputState := {| Types.text := "What does this clause mean?";
                               Types.files := []; Types.language := "English" |};
          App.result := JNull; App.errorMsg := ""; App.showPrivacy := false;
          App.isDarkMode := false |};
     App.card := InputCard.initialCard;
     App.outstanding := [ {| Types.text := "What does this clause mean?";
                             Types.files := []; Types.language := "English" |} ] |}.

End Samples.

(* ===================================================================== *)
(** ** The specification's vocabulary *)
(* ===================================================================== *)

(** The notions the properties below are stated with, written from the
    specification's words; the theorems compare them with the functions
    above. *)
Module Spec.
Import Gemini.

(** A client error, as in the comment of the handler of [callWithRetry]
    ("Don't retry on 4xx Client Errors (except 429 Too Many Requests)"): an
    HTTP status from 400 to 499. *)
Definition is4xxClientError (error : Error) : bool :=
  match status error with
  | Some s => (400 <=? s) && (s <=? 499)
  | None => false
  end.

(** The text part for a plain-text file with the given content. *)
Definition textPartOf (file : DOM.File) (content : string) : ProcessedPart :=
  {| type := text_content;
     mimeType := None;
     data := None;
     text := Some ("[Attached File: " +++ DOM.name file +++ "]" +++ newline
                   +++ content +++ newline +++ "---") |}.

(** The inline part holding a MIME type and base64 data. *)
Definition inlinePartOf (mime base64 : string) : ProcessedPart :=
  {| type := inline_data; mimeType := Some mime; data := Some base64; text := None |}.

(** The side of the canvas for a side of the resized image: its whole
    pixels. *)
Definition pixels (side : number) : Z := toUnsignedLong side.

(** The compressed JPEG re-encoding of an image file: the image has loaded
    with the given width and height, the browser has given a 2D context,
    and the data URL is the export, as JPEG at quality 0.8, of the canvas
    that has the size of the resized image. *)
Definition jpegReencoding {W} (P : Platform W) (file : DOM.File)
  (imgWidth imgHeight : Z) (dataUrl : string) : Prop :=
  imageSize P file = Some (imgWidth, imgHeight) /\
  canvasContext P = true /\
  dataUrl = toDataURL P file
              (pixels (fst (scaleDown (ofInteger imgWidth) (ofInteger imgHeight))))
              (pixels (snd (scaleDown (ofInteger imgWidth) (ofInteger imgHeight))))
              "image/jpeg" 0.8%float.

(** The part a file is turned into, by MIME type. *)
Inductive partFor {W} (P : Platform W) (file : DOM.File) : ProcessedPart -> Prop :=
| partFor_text content :
    DOM.type file = "text/plain" ->
    readAsText P file = Resolved content ->
    partFor P file (textPartOf file content)
| partFor_image imgWidth imgHeight dataUrl mime base64 :
    DOM.type file <> "text/plain" ->
    JS.startsWith (DOM.type file) "image/" = true ->
    jpegReencoding P file imgWidth imgHeight dataUrl ->
    parseDataUrl dataUrl = Resolved (mime, base64) ->
    partFor P file (inlinePartOf mime base64)
| partFor_other dataUrl mime base64 :
    DOM.type file <> "text/plain" ->
    JS.startsWith (DOM.type file) "image/" = false ->
    readAsDataURL P file = Resolved dataUrl ->
    parseDataUrl dataUrl = Resolved (mime, base64) ->
    partFor P file (inlinePartOf mime base64).

(** Processing the file fails: there is no part for it. *)
Definition processingFails {W} (P : Platform W) (file : DOM.File) : Prop :=
  forall part, ~ partFor P file part.

(** The text is empty or consists of white space only. *)
Definition whitespaceOnly (s : string) : bool :=
  List.forallb JS.isWhiteSpace (list_ascii_of_string s).

(** The API key is absent: not configured, or configured empty. *)
Definition apiKeyAbsent {W} (P : Platform W) : Prop :=
  API_KEY P = None \/ API_KEY P = Some "".

(** An upload the input card supports: at most 20 MB, and an image, a PDF
    or plain text. *)
Definition supportedUpload (file : DOM.File) : bool :=
  (DOM.size file <=? 20 * 1024 * 1024)
  && (JS.startsWith (DOM.type file) "image/"
      || String.eqb (DOM.type file) "application/pdf"
      || String.eqb (DOM.type file) "text/plain").

(** The validation message for a rejected upload. *)
Definition rejectionMessage (file : DOM.File) : string :=
  if 20 * 1024 * 1024 <? DOM.size file
  then dq +++ DOM.name file +++ dq +++ " exceeds 20MB."
  else dq +++ DOM.name file +++ dq +++ " is not supported.".

(** The requests in flight are counted by the status: one while PROCESSING,
    none otherwise. *)
Definition counted (p : App.Page) : Prop :=
  List.length (App.outstanding p) = if App.isLoading (App.app p) then 1%nat else 0%nat.

(** The schema of one item of [ruleLens] inside [responseSchema]. *)
Definition ruleLensItemSchema : GenAI.Schema :=
  GenAI.mkSchema GenAI.OBJECT None
    [ ("term", fieldSchema GenAI.STRING None);
      ("definition",
       fieldSchema GenAI.STRING
         (Some "How this term functions within the document's context.")) ]
    None
    ["term"; "definition"].

End Spec.

(* ===================================================================== *)
(** ** Further notions and samples *)
(* ===================================================================== *)

Module More.
Import Gemini.

(** The time spent waiting in a log, in milliseconds. *)
Fixpoint totalDelay (log : list effect) : Z :=
  match log with
  | [] => 0
  | Delay ms :: rest => ms + totalDelay rest
  | Invoke :: rest => totalDelay rest
  end.

(** An operation that fails with HTTP 503 on its first two calls and then
    resolves with the number of earlier calls; the world counts the calls. *)
Definition flaky (w : nat) : outcome nat * nat :=
  if Nat.ltb w 2
  then (Rejected (mkError (Some "503 Service Unavailable") (Some 503)), S w)
  else (Resolved w, S w).

(** The browser of [Samples.platform] with a model service that rejects every
    request with [error]. *)
Definition failingPlatform (error : Error) : Platform nat :=
  let base := Samples.platform (Some "key") (Samples.stopped "") in
  {| readAsText := readAsText base;
     readAsDataURL := readAsDataURL base;
     imageSize := imageSize base;
     canvasContext := canvasContext base;
     toDataURL := toDataURL base;
     settleOrder := settleOrder base;
     API_KEY := API_KEY base;
     generateContent := fun _ w => (Rejected error, S w);
     JSON_parse := JSON_parse base |}.

(** The browser of [Samples.platform], except that every image loads with
    the given width and height. *)
Definition browserWithImages (imgWidth imgHeight : Z) : Platform nat :=
  let base := Samples.platform (Some "key") (Samples.stopped "") in
  {| readAsText := readAsText base;
     readAsDataURL := readAsDataURL base;
     imageSize := fun _ => Some (imgWidth, imgHeight);
     canvasContext := canvasContext base;
     toDataURL := toDataURL base;
     settleOrder := settleOrder base;
     API_KEY := API_KEY base;
     generateContent := generateContent base;
     JSON_parse := JSON_parse base |}.

(** [response.candidates?.[0]?.finishReason] *)
Definition firstFinishReason (response : GenAI.GenerateContentResponse) : option string :=
  match GenAI.candidates response with
  | Some (c :: _) => GenAI.finishReason c
  | _ => None
  end.

(** The first candidate, if any, gives no finish reason or the reason STOP. *)
Definition finishedNormally (response : GenAI.GenerateContentResponse) : Prop :=
  firstFinishReason response = None \/
  firstFinishReason response = Some "" \/
  firstFinishReason response = Some "STOP".

(** The processed part carries what the request needs: a text part carries a
    text, an inline part a MIME type and data, none of them empty. *)
Definition complete (part : ProcessedPart) : bool :=
  match type part with
  | inline_data => truthyOpt (data part) && truthyOpt (mimeType part)
  | text_content => truthyOpt (text part)
  end.

(** Successive firings of the interval that [simulateUpload] starts for
    [file], one for each value of [Math.random()]. *)
Definition ticks (file : DOM.File) (randoms : list number) (up : list (string * number))
  : list (string * number) :=
  List.fold_left (fun u random => InputCard.uploadTick file random u) randoms up.

(** A file of exactly 20 MB. *)
Definition largest : DOM.File := DOM.mkFile "largest.pdf" "application/pdf" 20971520 0.


(** The application at mount, with a text typed in. *)
Definition initialApp_with (typed : string) : App.AppState :=
  App.setInputState
    (fun prev => {| Types.text := typed; Types.files := Types.files prev;
                    Types.language := Types.language prev |})
    (App.initialApp false).

(** The application at mount, with files selected. *)
Definition appWithFiles (selected : list DOM.File) : App.AppState :=
  App.setInputState
    (fun prev => {| Types.text := Types.text prev; Types.files := selected;
                    Types.language := Types.language prev |})
    (App.initialApp false).

(** The browser of [Samples.platform], except that every file is read as an
    empty PDF. *)
Definition emptyLeasePlatform : Platform nat :=
  let base := Samples.platform (Some "key") (Samples.stopped "") in
  {| readAsText := readAsText base;
     readAsDataURL := fun _ => Resolved "data:application/pdf;base64,";
     imageSize := imageSize base;
     canvasContext := canvasContext base;
     toDataURL := toDataURL base;
     settleOrder := settleOrder base;
     API_KEY := API_KEY base;
     generateContent := generateContent base;
     JSON_parse := JSON_parse base |}.

(** The page after an analysis of a typed question has succeeded. *)
Definition finishedPage : App.Page :=
  {| App.app :=
       {| App.status := Types.SUCCESS;
          App.inputState := {| Types.text := "What does this clause mean?";
                               Types.files := []; Types.language := "Deutsch" |};
          App.result := Samples.fullAnswerValue;
          App.errorMsg := ""; App.showPrivacy := false; App.isDarkMode := false |};
     App.card := InputCard.initialCard;
     App.outstanding := [] |}.

(** The page shows the outcome of the last submission and nothing older:
    there is an error message exactly in status ERROR, and a result only in
    status SUCCESS. *)
Definition showsLastOutcome (a : App.AppState) : Prop :=
  (App.status a = Types.ERROR <-> App.errorMsg a <> "") /\
  (App.result a <> JNull -> App.status a = Types.SUCCESS).

End More.

(* ===================================================================== *)
(** ** Properties of the retry wrapper *)
(* ===================================================================== *)

Module RetryFacts.
Import Gemini Samples Spec.

Section WithOperation.

Context {W T : Type}.
Variable fn : W -> outcome T * W.

(** The body of [callWithRetry], as one equation. *)
Lemma callWithRetry_unfold retries backoff w log :
  callWithRetry fn retries backoff (w, log) =
  match fn w with
  | (Resolved v, w') => (Resolved v, (w', log ++ [Invoke]))
  | (Rejected error, w') =>
      if givesUp error retries
      then (Rejected error, (w', log ++ [Invoke]))
      else callWithRetry fn (retries - 1) (backoff * 2)
                         (w', log ++ [Invoke; Delay backoff])
  end.
Proof.
  simp callWithRetry.
  destruct (fn w) as [[v | error] w']; cbn; [reflexivity | ].
  generalize (@eq_refl bool (givesUp error retries)).
  generalize (givesUp error retries).
  intros [|] ?; reflexivity.
Qed.

Lemma callWithRetry_resolved retries backoff w log v w' :
  fn w = (Resolved v, w') ->
  callWithRetry fn retries backoff (w, log) = (Resolved v, (w', log ++ [Invoke])).
Proof.
  intros Hfn. rewrite callWithRetry_unfold, Hfn. reflexivity.
Qed.

Lemma callWithRetry_rethrows retries backoff w log error w' :
  fn w = (Rejected error, w') ->
  givesUp error retries = true ->
  callWithRetry fn retries backoff (w, log) = (Rejected error, (w', log ++ [Invoke])).
Proof.
  intros Hfn Hg. rewrite callWithRetry_unfold, Hfn, Hg. reflexivity.
Qed.

Lemma callWithRetry_retries retries backoff w log error w' :
  fn w = (Rejected error, w') ->
  givesUp error retries = false ->
  callWithRetry fn retries backoff (w, log) =
  callWithRetry fn (retries - 1) (backoff * 2) (w', log ++ [Invoke; Delay backoff]).
Proof.
  intros Hfn Hg. rewrite callWithRetry_unfold, Hfn, Hg. reflexivity.
Qed.

Lemma givesUp_retryable error retries :
  retryable error = true -> givesUp error retries = (retries <=? 0).
Proof.
  unfold retryable, givesUp. intros H.
  apply negb_true_iff in H. rewrite H. reflexivity.
Qed.

Lemma after_shift n w : after fn n (snd (fn w)) = after fn (S n) w.
Proof.
  induction n as [ | n IH]; [reflexivity | ].
  cbn [after] in *. rewrite IH. reflexivity.
Qed.

(** When the first [n + 1] invocations all fail with retryable errors, a call
    with [n] retries makes exactly those invocations, waits between them with
    a doubling delay, and settles with the error of the last one. *)
Lemma callWithRetry_all_fail (n : nat) : forall backoff w log,
  (forall k, (k <= n)%nat ->
     exists e, fst (fn (after fn k w)) = Rejected e /\ retryable e = true) ->
  callWithRetry fn (Z.of_nat n) backoff (w, log) =
  (fst (fn (after fn n w)),
   (after fn (S n) w, log ++ failedAttempts n backoff ++ [Invoke])).
Proof.
  induction n as [ | n IH]; intros backoff w log Hfail.
  - destruct (Hfail O (Nat.le_refl _)) as (e & He & Hr). cbn [after] in *.
    destruct (fn w) as [o w'] eqn:Hfn. cbn [fst snd] in *. subst o.
    erewrite callWithRetry_rethrows; [reflexivity | eassumption | ].
    rewrite givesUp_retryable by assumption. reflexivity.
  - destruct (Hfail O (Nat.le_0_l _)) as (e & He & Hr). cbn [after fst] in He.
    destruct (fn w) as [o w'] eqn:Hfn. cbn [fst] in He. subst o.
    erewrite callWithRetry_retries; [ | eassumption | ].
    2:{ rewrite givesUp_retryable by assumption. apply Z.leb_gt. lia. }
    replace (Z.of_nat (S n) - 1) with (Z.of_nat n) by lia.
    assert (Hw' : w' = snd (fn w)) by (rewrite Hfn; reflexivity).
    rewrite IH.
    + rewrite Hw', !after_shift. cbn [failedAttempts].
      rewrite <- !app_assoc. reflexivity.
    + intros k Hk. rewrite Hw', after_shift. apply Hfail. lia.
Qed.

(** Whatever [fn] does, a call adds at most [retries + 1] invocations to the
    log, and only extends the log. *)
Lemma callWithRetry_invocations_bound (n : nat) : forall retries backoff w log,
  Z.to_nat retries = n ->
  exists added,
    snd (snd (callWithRetry fn retries backoff (w, log))) = log ++ added /\
    (invocations added <= n + 1)%nat.
Proof.
  induction n as [ | n IH]; intros retries backoff w log Hn;
    rewrite callWithRetry_unfold; destruct (fn w) as [[v | error] w'];
    try (exists [Invoke]; split; [reflexivity | cbn; lia]).
  - assert (Hg : givesUp error retries = true).
    { unfold givesUp. replace (retries <=? 0) with true by (symmetry; apply Z.leb_le; lia).
      apply orb_true_r. }
    rewrite Hg. exists [Invoke]; split; [reflexivity | cbn; lia].
  - destruct (givesUp error retries).
    + exists [Invoke]; split; [reflexivity | cbn; lia].
    + destruct (IH (retries - 1) (backoff * 2) w' (log ++ [Invoke; Delay backoff]))
        as (added & Hlog & Hcount); [lia | ].
      exists ([Invoke; Delay backoff] ++ added). split.
      * rewrite Hlog, <- app_assoc. reflexivity.
      * unfold invocations in *. cbn. lia.
Qed.

(** C1.  If [fn] keeps failing with a retryable error, [callWithRetry(fn)]
    invokes it four times in all (the initial attempt and [MAX_RETRIES] = 3
    retries), waits 1000, 2000 and 4000 ms before the successive retries, and
    then settles with the error of the last attempt. *)
Theorem callWithRetry_bounded_exponential_backoff (w : W) :
  (forall k, (k <= 3)%nat ->
     exists e, fst (fn (after fn k w)) = Rejected e /\ retryable e = true) ->
  exists lastError,
    fst (fn (after fn 3 w)) = Rejected lastError /\
    callWithRetryDefault fn (w, []) =
      (Rejected lastError,
       (after fn 4 w,
        [Invoke; Delay 1000; Invoke; Delay 2000; Invoke; Delay 4000; Invoke])) /\
    invocations (snd (snd (callWithRetryDefault fn (w, [])))) = 4%nat.
Proof.
  intros Hfail.
  destruct (Hfail 3%nat (Nat.le_refl _)) as (e & He & _).
  exists e. split; [exact He | ].
  unfold callWithRetryDefault, MAX_RETRIES, INITIAL_RETRY_DELAY.
  change 3 with (Z.of_nat 3).
  rewrite (callWithRetry_all_fail 3 1000 w [] Hfail), He.
  split; reflexivity.
Qed.

(** What the handler gets right: an error recognised as a 400 client error
    that is not a quota error is rethrown at once, whatever retries remain. *)
Lemma callWithRetry_client_error_immediate retries backoff w log error w' :
  fn w = (Rejected error, w') ->
  isClientError error = true ->
  isQuotaError error = false ->
  callWithRetry fn retries backoff (w, log) = (Rejected error, (w', log ++ [Invoke])).
Proof.
  intros Hfn Hc Hq. apply callWithRetry_rethrows; [assumption |].
  unfold givesUp. rewrite Hc, Hq. reflexivity.
Qed.

(** Quota errors are retried as long as retries remain. *)
Lemma callWithRetry_quota_error_retried retries backoff w log error w' :
  fn w = (Rejected error, w') ->
  isQuotaError error = true ->
  0 < retries ->
  callWithRetry fn retries backoff (w, log) =
  callWithRetry fn (retries - 1) (backoff * 2) (w', log ++ [Invoke; Delay backoff]).
Proof.
  intros Hfn Hq Hr. apply callWithRetry_retries with (error := error); [assumption |].
  unfold givesUp. rewrite Hq, andb_false_r. apply Z.leb_gt. assumption.
Qed.

(** Every error that carries neither the 400 nor the 429 mark is retried as
    long as retries remain; this includes every other client error. *)
Lemma callWithRetry_other_error_retried retries backoff w log error w' :
  fn w = (Rejected error, w') ->
  isClientError error = false ->
  0 < retries ->
  callWithRetry fn retries backoff (w, log) =
  callWithRetry fn (retries - 1) (backoff * 2) (w', log ++ [Invoke; Delay backoff]).
Proof.
  intros Hfn Hc Hr. apply callWithRetry_retries with (error := error); [assumption |].
  unfold givesUp. rewrite Hc. apply Z.leb_gt. assumption.
Qed.

End WithOperation.

(** C2 does not hold of the code, which also departs from its own comment.
    A 403 response is a client error and no quota error, yet [callWithRetry]
    does not rethrow it: it waits 1000 ms and invokes the operation a second
    time. *)
Theorem callWithRetry_retries_forbidden :
  is4xxClientError forbidden = true /\
  isQuotaError forbidden = false /\
  callWithRetryDefault forbiddenThenOk (O, []) =
    (Resolved tt, (2%nat, [Invoke; Delay 1000; Invoke])).
Proof.
  split; [reflexivity | split; [reflexivity | ]].
  unfold callWithRetryDefault.
  rewrite (callWithRetry_other_error_retried forbiddenThenOk _ _ _ _ forbidden 1%nat);
    [ | reflexivity | reflexivity | reflexivity ].
  rewrite (callWithRetry_resolved forbiddenThenOk _ _ _ _ tt 2%nat); reflexivity.
Qed.

Lemma callWithRetry_bounded_exponential_backoff_witness :
  exists lastError,
    fst (alwaysUnavailable (after alwaysUnavailable 3 O)) = Rejected lastError /\
    callWithRetryDefault alwaysUnavailable (O, []) =
      (Rejected lastError,
       (after alwaysUnavailable 4 O,
        [Invoke; Delay 1000; Invoke; Delay 2000; Invoke; Delay 4000; Invoke])) /\
    invocations (snd (snd (callWithRetryDefault alwaysUnavailable (O, [])))) = 4%nat.
Proof.
  apply (callWithRetry_bounded_exponential_backoff alwaysUnavailable O).
  intros k _. eexists. split; reflexivity.
Defined.

End RetryFacts.
(* ===================================================================== *)
(** ** Properties of the resizing step *)
(* ===================================================================== *)

Module ImageFacts.
Import Gemini More.






Example scaleDown_landscape :
  scaleDown 3000 2000 = (1536, 1024)%float.
Proof. reflexivity. Qed.

Example scaleDown_small : scaleDown 800 600 = (800, 600)%float.
Proof. reflexivity. Qed.

End ImageFacts.

(* ===================================================================== *)
(** ** Properties of the file preprocessing *)
(* ===================================================================== *)

Module FilesFacts.
Import Gemini Spec Samples More.

(** *** [Promise.all] *)

Lemma resolvedValues_map {A} (values : list A) :
  resolvedValues (List.map Resolved values) = values.
Proof. induction values as [ | v values IH]; cbn; congruence. Qed.

Lemma firstRejected_sound {A} (order : list nat) (rs : list (outcome A)) e :
  firstRejected order rs = Some e -> exists i, nth_error rs i = Some (Rejected e).
Proof.
  induction order as [ | i order IH]; cbn; [discriminate | ].
  destruct (nth_error rs i) as [[a | e'] | ] eqn:E; auto.
  intros H. injection H as <-. eauto.
Qed.

Lemma firstRejected_complete {A} (order : list nat) (rs : list (outcome A)) i e :
  In i order -> nth_error rs i = Some (Rejected e) ->
  exists e', firstRejected order rs = Some e'.
Proof.
  induction order as [ | j order IH]; cbn; [intros [] | ].
  intros [-> | Hin] Hi.
  - rewrite Hi. eauto.
  - destruct (nth_error rs j) as [[a | e'] | ]; eauto.
Qed.

(** A list of promises none of which rejected is the list of its values. *)
Lemma none_rejected {A} (rs : list (outcome A)) :
  (forall i e, nth_error rs i <> Some (Rejected e)) ->
  rs = List.map Resolved (resolvedValues rs).
Proof.
  induction rs as [ | r rs IH]; intros H; cbn; [reflexivity | ].
  destruct r as [a | e].
  - cbn. f_equal. apply IH. intros i e. apply (H (S i) e).
  - exfalso. apply (H O e). reflexivity.
Qed.

(** [Promise.all] rejects as soon as one promise rejected. *)
Lemma Promise_all_rejects {A} order (rs : list (outcome A)) i e :
  nth_error rs i = Some (Rejected e) -> exists e', Promise_all order rs = Rejected e'.
Proof.
  intros Hi. unfold Promise_all.
  destruct (firstRejected_complete (order ++ seq 0 (List.length rs)) rs i e)
    as (e' & ->); [ | assumption | eauto].
  apply in_or_app. right. apply in_seq.
  assert (i < List.length rs)%nat by (apply nth_error_Some; congruence). lia.
Qed.

(** [Promise.all] rejects with the error of one of the rejected promises. *)
Lemma Promise_all_Rejected {A} order (rs : list (outcome A)) e :
  Promise_all order rs = Rejected e -> exists i, nth_error rs i = Some (Rejected e).
Proof.
  unfold Promise_all. destruct (firstRejected _ rs) eqn:E; [ | discriminate].
  intros H. injection H as <-. eapply firstRejected_sound. eassumption.
Qed.

(** [Promise.all] resolves exactly when every promise resolved, with the
    values in the order of the promises. *)
Lemma Promise_all_Resolved {A} order (rs : list (outcome A)) values :
  Promise_all order rs = Resolved values <-> rs = List.map Resolved values.
Proof.
  split.
  - intros H.
    assert (Hnone : forall i e, nth_error rs i <> Some (Rejected e)).
    { intros i e Hi. destruct (Promise_all_rejects order rs i e Hi) as (e' & He').
      congruence. }
    unfold Promise_all in H. destruct (firstRejected _ rs); [discriminate | ].
    injection H as <-. apply none_rejected. assumption.
  - intros ->. unfold Promise_all.
    destruct (firstRejected _ (List.map Resolved values)) as [e | ] eqn:E.
    + apply firstRejected_sound in E as (i & Hi).
      rewrite nth_error_map in Hi. destruct (nth_error values i); discriminate.
    + rewrite resolvedValues_map. reflexivity.
Qed.

(** *** Data URLs *)

Lemma length_append (a b : string) :
  String.length (a +++ b) = (String.length a + String.length b)%nat.
Proof. induction a as [ | c a IH]; cbn; [reflexivity | rewrite IH; reflexivity]. Qed.

Lemma append_assoc (a b c : string) : (a +++ b) +++ c = a +++ b +++ c.
Proof. induction a as [ | x a IH]; cbn; [reflexivity | rewrite IH; reflexivity]. Qed.

Lemma substring_skip (a s : string) (n m : nat) :
  String.substring (String.length a + n) m (a +++ s) = String.substring n m s.
Proof. induction a as [ | c a IH]; cbn; [reflexivity | exact IH]. Qed.

Lemma substring_prefix (b c : string) :
  String.substring 0 (String.length b) (b +++ c) = b.
Proof.
  induction b as [ | x b IH]; cbn.
  - destruct c; reflexivity.
  - rewrite IH. reflexivity.
Qed.

Lemma indexOf_append_absent (a s : string) (c : ascii) :
  JS.indexOf a c = None ->
  JS.indexOf (a +++ s) c = option_map (Nat.add (String.length a)) (JS.indexOf s c).
Proof.
  induction a as [ | x a IH]; cbn.
  - intros _. destruct (JS.indexOf s c); reflexivity.
  - destruct (Ascii.eqb x c); [discriminate | ].
    destruct (JS.indexOf a c) eqn:E; [discriminate | ]. intros _.
    rewrite IH by reflexivity. destruct (JS.indexOf s c); reflexivity.
Qed.

Lemma splitHead_append (a s : string) (c : ascii) :
  JS.indexOf a c = None ->
  JS.splitHead (a +++ String c s) c = a.
Proof.
  induction a as [ | x a IH]; cbn.
  - intros _. rewrite Ascii.eqb_refl. reflexivity.
  - destruct (Ascii.eqb x c); [discriminate | ].
    destruct (JS.indexOf a c) eqn:E; [discriminate | ]. intros _.
    rewrite IH by reflexivity. reflexivity.
Qed.

Lemma substring_whole (b : string) : String.substring 0 (String.length b) b = b.
Proof. induction b as [ | x b IH]; cbn; congruence. Qed.

Lemma substring_left (a s : string) (n m : nat) :
  (n + m <= String.length a)%nat ->
  String.substring n m (a +++ s) = String.substring n m a.
Proof.
  revert n m. induction a as [ | x a IH]; intros n m H; cbn in *.
  - assert (n = O) by lia. assert (m = O) by lia. subst. destruct s; reflexivity.
  - destruct n as [ | n].
    + destruct m as [ | m]; [reflexivity | ]. f_equal. apply (IH O m). lia.
    + apply IH. lia.
Qed.

(** What [parseDataUrl] returns for a text whose first comma follows a head
    of at least five characters. *)
Lemma parseDataUrl_split (head payload : string) :
  JS.indexOf head "," = None ->
  (5 <= String.length head)%nat ->
  parseDataUrl (head +++ "," +++ payload) =
  Resolved (JS.splitHead (String.substring 5 (String.length head - 5) head) ";", payload).
Proof.
  intros Hcomma Hlen.
  unfold parseDataUrl. rewrite indexOf_append_absent by assumption.
  cbn [JS.indexOf option_map append]. rewrite Ascii.eqb_refl. cbn [option_map].
  unfold JS.substringFrom, JS.substring.
  rewrite length_append. cbn [String.length append].
  remember (String.length head) as n eqn:Hn.
  remember (String.length payload) as k eqn:Hk.
  replace (Nat.min 5 (n + S k)) with 5%nat by lia.
  replace (Nat.min (n + 0) (n + S k)) with n by lia.
  replace (Nat.min 5 n) with 5%nat by lia.
  replace (Nat.max 5 n) with n by lia.
  replace (Nat.min (n + 0 + 1) (n + S k)) with (n + 1)%nat by lia.
  rewrite Nat.min_id.
  replace (Nat.min (n + 1) (n + S k)) with (n + 1)%nat by lia.
  replace (Nat.max (n + 1) (n + S k) - (n + 1))%nat with k by lia.
  f_equal. f_equal.
  - f_equal. apply substring_left. lia.
  - subst n k. rewrite substring_skip. cbn [String.substring].
    apply substring_whole.
Qed.

(** [parseDataUrl] takes a base64 data URL apart into its MIME type and its
    payload. *)
Lemma parseDataUrl_base64 (mime payload : string) :
  JS.indexOf mime "," = None ->
  JS.indexOf mime ";" = None ->
  parseDataUrl ("data:" +++ mime +++ ";base64," +++ payload) = Resolved (mime, payload).
Proof.
  intros Hcomma Hsemi.
  assert (Hurl : "data:" +++ mime +++ ";base64," +++ payload
                 = ("data:" +++ mime +++ ";base64") +++ "," +++ payload).
  { rewrite !append_assoc. reflexivity. }
  rewrite Hurl, parseDataUrl_split.
  - f_equal. f_equal.
    rewrite length_append. cbn [String.length].
    change ("data:" +++ mime +++ ";base64") with ("data:" +++ (mime +++ ";base64")).
    replace (5 + String.length (mime +++ ";base64") - 5)%nat
      with (String.length (mime +++ ";base64")) by lia.
    change 5%nat with (String.length "data:" + 0)%nat.
    rewrite substring_skip, substring_whole.
    apply splitHead_append. assumption.
  - cbn. rewrite indexOf_append_absent by assumption. reflexivity.
  - rewrite length_append. cbn. lia.
Qed.

Example parseDataUrl_jpeg :
  parseDataUrl "data:image/jpeg;base64,/9j/4AAQ" = Resolved ("image/jpeg", "/9j/4AAQ").
Proof. reflexivity. Qed.

Example parseDataUrl_no_comma :
  parseDataUrl "data:image/jpeg" = Rejected (newError "Invalid Data URL format").
Proof. reflexivity. Qed.

(** *** One file *)

Section OneFile.

Context {W : Type}.
Variable P : Platform W.

(** [compressImage] resolves with the JPEG re-encoding, and only with it. *)
Lemma compressImage_jpegReencoding (file : DOM.File) (dataUrl : string) :
  compressImage P file = Resolved dataUrl <->
  exists imgWidth imgHeight, jpegReencoding P file imgWidth imgHeight dataUrl.
Proof.
  unfold compressImage, jpegReencoding, pixels, JPEG_QUALITY. split.
  - destruct (imageSize P file) as [ [imgWidth imgHeight] | ]; [ | discriminate].
    destruct (scaleDown (ofInteger imgWidth) (ofInteger imgHeight)) as [width height] eqn:Hs.
    destruct (canvasContext P); cbn [negb]; [ | discriminate].
    intros H. injection H as <-. exists imgWidth, imgHeight.
    rewrite Hs. cbn [fst snd]. split; [reflexivity | split; reflexivity].
  - intros (imgWidth & imgHeight & Hsize & Hctx & ->). rewrite Hsize, Hctx.
    destruct (scaleDown (ofInteger imgWidth) (ofInteger imgHeight)) as [width height].
    reflexivity.
Qed.

Lemma processFileBody_partFor (file : DOM.File) (part : ProcessedPart) :
  processFileBody P file = Resolved part <-> partFor P file part.
Proof.
  unfold processFileBody, readFileAsText, readFileAsBase64. split.
  - destruct (String.eqb_spec (DOM.type file) "text/plain") as [Htxt | Htxt].
    + destruct (readAsText P file) as [content | e] eqn:Hread; cbn; [ | discriminate].
      intros H. injection H as <-. apply (partFor_text P file content); assumption.
    + destruct (JS.startsWith (DOM.type file) "image/") eqn:Himg.
      * destruct (compressImage P file) as [dataUrl | e] eqn:Hc; cbn; [ | discriminate].
        destruct (parseDataUrl dataUrl) as [[mime dat] | e] eqn:Hp; cbn; [ | discriminate].
        intros H. injection H as <-.
        apply compressImage_jpegReencoding in Hc as (imgWidth & imgHeight & Hc).
        apply (partFor_image P file imgWidth imgHeight dataUrl mime dat); assumption.
      * destruct (readAsDataURL P file) as [dataUrl | e] eqn:Hr; cbn; [ | discriminate].
        destruct (parseDataUrl dataUrl) as [[mime dat] | e] eqn:Hp; cbn; [ | discriminate].
        intros H. injection H as <-.
        apply (partFor_other P file dataUrl mime dat); assumption.
  - intros [content Htxt Hread | imgWidth imgHeight dataUrl mime dat Htxt Himg Hc Hp
            | dataUrl mime dat Htxt Himg Hr Hp].
    + rewrite Htxt, String.eqb_refl, Hread. reflexivity.
    + apply String.eqb_neq in Htxt. rewrite Htxt, Himg.
      assert (Hc' : compressImage P file = Resolved dataUrl).
      { apply compressImage_jpegReencoding. exists imgWidth, imgHeight. assumption. }
      rewrite Hc'. cbn. rewrite Hp. reflexivity.
    + apply String.eqb_neq in Htxt. rewrite Htxt, Himg, Hr. cbn. rewrite Hp. reflexivity.
Qed.

Lemma processFile_Resolved (file : DOM.File) (part : ProcessedPart) :
  processFile P file = Resolved part <-> partFor P file part.
Proof.
  rewrite <- processFileBody_partFor. unfold processFile.
  destruct (processFileBody P file); split; congruence.
Qed.

Lemma processFile_Rejected (file : DOM.File) (e : Error) :
  processFile P file = Rejected e <->
  processingFails P file /\ e = couldNotProcess file.
Proof.
  unfold processingFails, processFile.
  destruct (processFileBody P file) as [part | e'] eqn:Hbody.
  - split; [discriminate | ]. intros [Hfail _]. exfalso.
    apply (Hfail part), processFileBody_partFor. assumption.
  - split.
    + intros H. injection H as <-. split; [ | reflexivity].
      intros part Hpart. apply processFileBody_partFor in Hpart. congruence.
    + intros [_ ->]. reflexivity.
Qed.

Lemma map_processFile_Resolved (files : list DOM.File) (parts : list ProcessedPart) :
  List.map (processFile P) files = List.map Resolved parts <->
  Forall2 (partFor P) files parts.
Proof.
  revert parts. induction files as [ | f files IH]; intros [ | p parts]; cbn.
  - split; [constructor | reflexivity].
  - split; [discriminate | intros H; inversion H].
  - split; [discriminate | intros H; inversion H].
  - split.
    + intros H. injection H as Hf Hrest. constructor.
      * apply processFile_Resolved. assumption.
      * apply IH. assumption.
    + intros H. inversion H as [ | ? ? ? ? Hf Hrest]; subst.
      apply processFile_Resolved in Hf. apply IH in Hrest. congruence.
Qed.

(** C4.  [processFilesForGemini] resolves exactly with one part per file, in
    the order of the files, each part being the one its file's MIME type
    calls for: the text part "[Attached File: <name>]", the file's text and
    "---" for text/plain; for image/..., the MIME type and base64 data of
    the data URL that the canvas exports as JPEG at quality 0.8, the canvas
    having the whole pixels of the resized image; the MIME type and base64
    data of the file's own data URL otherwise.  It rejects exactly when
    processing some file fails, and then with "Could not process <name>.
    Please try a different file." for a file that failed.  A data URL
    "data:<mime>;base64,<data>" gives the part with that MIME type and that
    data.  Processing fails when the file cannot be read, when an image
    does not load or the browser gives no 2D context, and when the data
    URL has no comma. *)
Theorem processFilesForGemini_one_part_per_file (files : list DOM.File) :
  (forall parts,
     processFilesForGemini P files = Resolved parts <-> Forall2 (partFor P) files parts) /\
  (forall e,
     processFilesForGemini P files = Rejected e ->
     exists file,
       In file files /\ processingFails P file /\
       e = newError ("Could not process " +++ DOM.name file
                     +++ ". Please try a different file.")) /\
  ((exists file, In file files /\ processingFails P file) ->
   exists e, processFilesForGemini P files = Rejected e) /\
  (forall file mime base64,
     DOM.type file <> "text/plain" ->
     JS.indexOf mime "," = None -> JS.indexOf mime ";" = None ->
     (if JS.startsWith (DOM.type file) "image/"
      then exists imgWidth imgHeight,
             imageSize P file = Some (imgWidth, imgHeight) /\
             canvasContext P = true /\
             toDataURL P file
               (toUnsignedLong (fst (scaleDown (ofInteger imgWidth) (ofInteger imgHeight))))
               (toUnsignedLong (snd (scaleDown (ofInteger imgWidth) (ofInteger imgHeight))))
               "image/jpeg" 0.8%float
             = "data:" +++ mime +++ ";base64," +++ base64
      else readAsDataURL P file = Resolved ("data:" +++ mime +++ ";base64," +++ base64)) ->
     partFor P file (inlinePartOf mime base64)) /\
  (forall file,
     (DOM.type file = "text/plain" /\ exists e, readAsText P file = Rejected e) \/
     (DOM.type file <> "text/plain" /\ JS.startsWith (DOM.type file) "image/" = true /\
      (imageSize P file = None \/ canvasContext P = false \/
       exists imgWidth imgHeight,
         imageSize P file = Some (imgWidth, imgHeight) /\
         JS.indexOf
           (toDataURL P file
              (toUnsignedLong (fst (scaleDown (ofInteger imgWidth) (ofInteger imgHeight))))
              (toUnsignedLong (snd (scaleDown (ofInteger imgWidth) (ofInteger imgHeight))))
              "image/jpeg" 0.8%float) "," = None)) \/
     (DOM.type file <> "text/plain" /\ JS.startsWith (DOM.type file) "image/" = false /\
      ((exists e, readAsDataURL P file = Rejected e) \/
       exists dataUrl, readAsDataURL P file = Resolved dataUrl /\
                       JS.indexOf dataUrl "," = None)) ->
     processingFails P file).
Proof.
  unfold processFilesForGemini. split; [ | split; [ | split; [ | split] ] ].
  - intros parts. rewrite Promise_all_Resolved. apply map_processFile_Resolved.
  - intros e H. apply Promise_all_Rejected in H as (i & Hi).
    rewrite nth_error_map in Hi.
    destruct (nth_error files i) as [file | ] eqn:Hfile; [ | discriminate].
    cbn in Hi. injection Hi as Hi. apply processFile_Rejected in Hi as [Hfail ->].
    exists file. split; [ | split; [assumption | reflexivity] ].
    eapply nth_error_In. eassumption.
  - intros (file & Hin & Hfail).
    apply In_nth_error in Hin as (i & Hi).
    apply (Promise_all_rejects _ _ i (couldNotProcess file)).
    rewrite nth_error_map, Hi. cbn. f_equal.
    apply processFile_Rejected. split; [assumption | reflexivity].
  - intros file mime base64 Htxt Hcomma Hsemi Hurl.
    pose proof (parseDataUrl_base64 mime base64 Hcomma Hsemi) as Hparse.
    destruct (JS.startsWith (DOM.type file) "image/") eqn:Himg.
    + destruct Hurl as (imgWidth & imgHeight & Hsize & Hctx & Hurl).
      apply (partFor_image P file imgWidth imgHeight
                           ("data:" +++ mime +++ ";base64," +++ base64));
        try assumption.
      unfold jpegReencoding, pixels.
      split; [assumption | split; [assumption | symmetry; assumption] ].
    + eapply partFor_other; eassumption.
  - intros file Hcause part Hpart.
    destruct Hpart as [content Htxt Hread
                      | imgWidth imgHeight dataUrl mime dat Htxt Himg (Hsize & Hctx & Hurl) Hp
                      | dataUrl mime dat Htxt Himg Hr Hp];
      destruct Hcause as [ (Htxt' & e & Hrej)
                         | [ (Htxt' & Himg' & Hbad) | (Htxt' & Himg' & Hbad) ] ];
      try congruence.
    + destruct Hbad as [Hnone | [Hnoctx | (w & h & Hsize' & Hnocomma)] ];
        try congruence.
      rewrite Hsize in Hsize'. injection Hsize' as <- <-.
      unfold pixels in Hurl. rewrite <- Hurl in Hnocomma.
      unfold parseDataUrl in Hp. rewrite Hnocomma in Hp. discriminate.
    + destruct Hbad as [ (e & Hrej) | (dataUrl' & Hr' & Hnocomma) ]; [congruence | ].
      rewrite Hr in Hr'. injection Hr' as <-.
      unfold parseDataUrl in Hp. rewrite Hnocomma in Hp. discriminate.
Qed.

End OneFile.

Lemma processFilesForGemini_one_part_per_file_witness :
  Forall2 (partFor (platform None (stopped fullAnswer)))
          [notes; scan; lease]
          [ textPartOf notes "Rent is due on May 1.";
            inlinePartOf "image/jpeg" "/9j/4AAQSkZJRg==";
            inlinePartOf "application/pdf" "JVBERi0xLjQ=" ].
Proof.
  apply (proj1 (processFilesForGemini_one_part_per_file
                  (platform None (stopped fullAnswer)) [notes; scan; lease])).
  reflexivity.
Defined.

Example processFilesForGemini_unreadable :
  processFilesForGemini (platform None (stopped fullAnswer)) [notes; broken; scan]
  = Rejected (newError "Could not process broken.pdf. Please try a different file.").
Proof. reflexivity. Qed.

(** The 3000 x 2000 image of the sample browser is drawn on a canvas of
    1536 x 1024 and exported as JPEG at quality 0.8. *)
Example compressImage_scan :
  compressImage (platform None (stopped fullAnswer)) scan
  = Resolved (toDataURL (platform None (stopped fullAnswer)) scan 1536 1024
                        "image/jpeg" 0.8%float).
Proof. reflexivity. Qed.

(** A 2244 x 1496 image is drawn on a canvas of 1536 x 1023, and a
    4000 x 2 image on a canvas of height 0. *)
Example compressImage_rounded :
  compressImage (browserWithImages 2244 1496) scan
  = Resolved (toDataURL (browserWithImages 2244 1496) scan 1536 1023 "image/jpeg" 0.8%float) /\
  compressImage (browserWithImages 4000 2) scan
  = Resolved (toDataURL (browserWithImages 4000 2) scan 1536 0 "image/jpeg" 0.8%float).
Proof. split; reflexivity. Qed.

End FilesFacts.

(* ===================================================================== *)
(** ** Properties of [analyzeDocument] *)
(* ===================================================================== *)

Module AnalyzeFacts.
Import Gemini Spec Samples.

(** *** White space *)

Lemma trimStart_whitespace (s : string) :
  whitespaceOnly s = true -> JS.trimStart s = EmptyString.
Proof.
  unfold whitespaceOnly. induction s as [ | c s IH]; cbn; [reflexivity | ].
  destruct (JS.isWhiteSpace c); [exact IH | discriminate].
Qed.

Lemma trimStart_head (s : string) c r :
  JS.trimStart s = String c r -> JS.isWhiteSpace c = false.
Proof.
  induction s as [ | a s IH]; cbn; [discriminate | ].
  destruct (JS.isWhiteSpace a) eqn:E; [exact IH | ].
  intros H. injection H as <- _. exact E.
Qed.

Lemma trimStart_empty (s : string) :
  JS.trimStart s = EmptyString -> whitespaceOnly s = true.
Proof.
  unfold whitespaceOnly. induction s as [ | c s IH]; cbn; [reflexivity | ].
  destruct (JS.isWhiteSpace c); [exact IH | discriminate].
Qed.

Lemma trimEnd_empty (s : string) :
  JS.trimEnd s = EmptyString -> whitespaceOnly s = true.
Proof.
  unfold whitespaceOnly. induction s as [ | c s IH]; cbn; [reflexivity | ].
  destruct (JS.trimEnd s); [ | discriminate].
  destruct (JS.isWhiteSpace c); [intros _; apply IH; reflexivity | discriminate].
Qed.

(** [text.trim()] is empty exactly for a text of white space only. *)
Lemma trim_empty_iff (s : string) :
  JS.trim s = EmptyString <-> whitespaceOnly s = true.
Proof.
  unfold JS.trim. split.
  - intros H. apply trimEnd_empty in H.
    destruct (JS.trimStart s) as [ | c r] eqn:E.
    + apply trimStart_empty. assumption.
    + apply trimStart_head in E. unfold whitespaceOnly in H. cbn in H.
      rewrite E in H. discriminate.
  - intros H. rewrite trimStart_whitespace by assumption. reflexivity.
Qed.

Lemma textPart_whitespace (text : string) :
  whitespaceOnly text = true -> textPart text = [].
Proof.
  intros H. apply trim_empty_iff in H. unfold textPart. rewrite H. reflexivity.
Qed.

Lemma truthyOpt_absent {W} (P : Platform W) :
  apiKeyAbsent P <-> truthyOpt (API_KEY P) = false.
Proof.
  unfold apiKeyAbsent. destruct (API_KEY P) as [[ | c k] | ]; cbn; split; intros H;
    try discriminate; try reflexivity; auto.
  destruct H; discriminate.
Qed.

Section WithPlatform.

Context {W : Type}.
Variable P : Platform W.

(** C8.  With no API key, [analyzeDocument] rejects with the configuration
    error; with a key, no part from the files and an empty or white-space
    text, it rejects with "No input provided...".  Either way the world and
    the effect log are as before: the model was not called. *)
Theorem analyzeDocument_rejects_degenerate_input
  (text : string) (files : list ProcessedPart) (targetLanguage : string)
  (st : W * list effect) :
  (apiKeyAbsent P ->
   analyzeDocument P text files targetLanguage st =
   (Rejected (newError "System Error: API Key is missing. Please check configuration."),
    st)) /\
  (~ apiKeyAbsent P ->
   fileParts files = [] ->
   whitespaceOnly text = true ->
   analyzeDocument P text files targetLanguage st =
   (Rejected (newError "No input provided. Please upload a file or enter text."), st)).
Proof.
  unfold analyzeDocument. split.
  - intros H. apply truthyOpt_absent in H. rewrite H. reflexivity.
  - intros Hkey Hfiles Htext.
    destruct (truthyOpt (API_KEY P)) eqn:E.
    + cbn [negb]. unfold buildParts.
      rewrite Hfiles, textPart_whitespace by assumption. reflexivity.
    + exfalso. apply Hkey, truthyOpt_absent. assumption.
Qed.

(** Past the two guards the model is called: the log grows by an invocation. *)
Lemma analyzeDocument_calls_model
  (text : string) (files : list ProcessedPart) (targetLanguage : string)
  (w : W) (log : list effect) :
  ~ apiKeyAbsent P ->
  buildParts text files <> [] ->
  exists added,
    snd (snd (analyzeDocument P text files targetLanguage (w, log)))
    = log ++ Invoke :: added.
Proof.
  intros Hkey Hparts. unfold analyzeDocument.
  destruct (truthyOpt (API_KEY P)) eqn:E;
    [ | exfalso; apply Hkey, truthyOpt_absent; assumption].
  cbn [negb]. destruct (buildParts text files) as [ | part parts] eqn:Eparts;
    [congruence | ].
  cbn [List.length Nat.eqb].
  destruct (callWithRetryDefault _ (w, log)) as [called st'] eqn:Hcall.
  assert (Hlog : exists added, snd st' = log ++ Invoke :: added).
  { unfold callWithRetryDefault in Hcall.
    rewrite RetryFacts.callWithRetry_unfold in Hcall.
    destruct (generateContent P _ w) as [[response | error] w1].
    - injection Hcall as _ <-. exists []. reflexivity.
    - destruct (givesUp error MAX_RETRIES).
      + injection Hcall as _ <-. exists []. reflexivity.
      + destruct (RetryFacts.callWithRetry_invocations_bound
                    (generateContent P (buildRequest (part :: parts) targetLanguage))
                    (Z.to_nat (MAX_RETRIES - 1)) (MAX_RETRIES - 1)
                    (INITIAL_RETRY_DELAY * 2) w1
                    (log ++ [Invoke; Delay INITIAL_RETRY_DELAY]) eq_refl)
          as (added & Hadded & _).
        rewrite Hcall in Hadded. cbn [snd] in Hadded.
        exists (Delay INITIAL_RETRY_DELAY :: added).
        rewrite Hadded, <- app_assoc. reflexivity. }
  destruct Hlog as (added & Hadded). exists added.
  destruct (bind called _); cbn [snd]; exact Hadded.
Qed.

(** *** The response shape *)

Lemma traverse_asString (l : list json) :
  forallb (GenAI.conforms (fieldSchema GenAI.STRING None)) l = true ->
  exists strs, Types.traverse Types.asString l = Some strs.
Proof.
  induction l as [ | v l IH]; cbn; [eauto | ].
  intros H. apply andb_prop in H as [Hv Hl].
  destruct (IH Hl) as (strs & ->).
  destruct v; try discriminate. cbn. eauto.
Qed.

Lemma asRuleLensItem_conforms (v : json) :
  GenAI.conforms ruleLensItemSchema v = true ->
  exists item, Types.asRuleLensItem v = Some item.
Proof.
  destruct v as [ | | | | | m]; try discriminate.
  cbn.
  destruct (getMember m "term") as [[ | | | t | | ] | ];
    destruct (getMember m "definition") as [[ | | | d | | ] | ];
    cbn; try discriminate.
  eauto.
Qed.

Lemma traverse_asRuleLensItem (l : list json) :
  forallb (GenAI.conforms ruleLensItemSchema) l = true ->
  exists items, Types.traverse Types.asRuleLensItem l = Some items.
Proof.
  induction l as [ | v l IH]; cbn [forallb Types.traverse]; [eauto | ].
  intros H. apply andb_prop in H as [Hv Hl].
  destruct (IH Hl) as (items & ->).
  destruct (asRuleLensItem_conforms v Hv) as (item & ->). eauto.
Qed.

(** A value that conforms to [responseSchema] has the shape of an
    [AptusResponse]. *)
Lemma responseSchema_shape (v : json) :
  GenAI.conforms responseSchema v = true -> Types.hasAptusResponseShape v = true.
Proof.
  destruct v as [ | | | | | m]; try discriminate.
  unfold Types.hasAptusResponseShape, Types.asAptusResponse. cbn.
  destruct (getMember m "tldr") as [[ | | | t | | ] | ];
    destruct (getMember m "ruleLens") as [[ | | | | rl | ] | ];
    destruct (getMember m "actionableSteps") as [[ | | | | steps | ] | ];
    destruct (getMember m "sourceCitation") as [[ | | | c | | ] | ];
    cbn; try discriminate;
    try (rewrite ?andb_false_r; discriminate).
  intros H.
  apply andb_prop in H as [Hrl H]. apply andb_prop in H as [Hsteps _].
  destruct (traverse_asRuleLensItem rl Hrl) as (items & ->).
  destruct (traverse_asString steps Hsteps) as (strs & ->).
  reflexivity.
Qed.

(** C3, as the code has it.  What a successful [analyzeDocument] returns is
    the value [JSON.parse] gives for the text of the model's response, as it
    is; it has the [AptusResponse] shape whenever it conforms to the response
    schema sent with the request. *)
Theorem analyzeDocument_returns_parsed_response
  (text : string) (files : list ProcessedPart) (targetLanguage : string)
  (st st' : W * list effect) (v : json) :
  analyzeDocument P text files targetLanguage st = (Resolved v, st') ->
  (exists response responseText,
     callWithRetryDefault
       (generateContent P (buildRequest (buildParts text files) targetLanguage)) st
     = (Resolved response, st') /\
     GenAI.responseSchema (buildRequest (buildParts text files) targetLanguage)
     = responseSchema /\
     GenAI.text response = Some responseText /\
     JSON_parse P responseText = Resolved v) /\
  (GenAI.conforms responseSchema v = true -> Types.hasAptusResponseShape v = true).
Proof.
  intros H. split; [ | apply responseSchema_shape].
  unfold analyzeDocument in H.
  destruct (negb (truthyOpt (API_KEY P))); [discriminate | ].
  destruct (Nat.eqb _ 0); [discriminate | ].
  destruct (callWithRetryDefault _ st) as [called st1] eqn:Hcall.
  destruct called as [response | e]; cbn [bind] in H; [ | discriminate].
  unfold readResponse in H.
  destruct (checkFinishReason response); cbn [bind] in H; [ | discriminate].
  destruct (GenAI.text response) as [responseText | ] eqn:Htext; [ | discriminate].
  destruct (negb (JS.truthy responseText)); [discriminate | ].
  destruct (JSON_parse P responseText) as [v' | e] eqn:Hparse; [ | discriminate].
  injection H as -> ->.
  exists response, responseText. repeat split; assumption.
Qed.

End WithPlatform.

Lemma analyzeDocument_rejects_degenerate_input_witness :
  analyzeDocument (platform None (stopped fullAnswer))
                  "What does this clause mean?" [] "English" (O, [])
  = (Rejected (newError "System Error: API Key is missing. Please check configuration."),
     (O, [])) /\
  analyzeDocument (platform (Some "key") (stopped fullAnswer)) "   " [] "English" (O, [])
  = (Rejected (newError "No input provided. Please upload a file or enter text."),
     (O, [])).
Proof.
  split.
  - apply (proj1 (analyzeDocument_rejects_degenerate_input
                    (platform None (stopped fullAnswer))
                    "What does this clause mean?" [] "English" (O, []))).
    left. reflexivity.
  - apply (proj2 (analyzeDocument_rejects_degenerate_input
                    (platform (Some "key") (stopped fullAnswer))
                    "   " [] "English" (O, []))).
    + intros [H | H]; discriminate H.
    + reflexivity.
    + reflexivity.
Defined.

Lemma analyzeDocument_returns_parsed_response_witness :
  (exists response responseText,
     callWithRetryDefault
       (generateContent (platform (Some "key") (stopped fullAnswer))
          (buildRequest (buildParts "What does this clause mean?" []) "English")) (O, [])
     = (Resolved response, (1%nat, [Invoke])) /\
     GenAI.responseSchema (buildRequest (buildParts "What does this clause mean?" []) "English")
     = responseSchema /\
     GenAI.text response = Some responseText /\
     JSON_parse (platform (Some "key") (stopped fullAnswer)) responseText
     = Resolved fullAnswerValue) /\
  (GenAI.conforms responseSchema fullAnswerValue = true ->
   Types.hasAptusResponseShape fullAnswerValue = true).
Proof.
  apply (analyzeDocument_returns_parsed_response
           (platform (Some "key") (stopped fullAnswer))
           "What does this clause mean?" [] "English" (O, []) (1%nat, [Invoke])
           fullAnswerValue).
  reflexivity.
Defined.

Example fullAnswer_conforms :
  GenAI.conforms responseSchema fullAnswerValue = true /\
  Types.asAptusResponse fullAnswerValue =
  Some {| Types.tldr := "A lease.";
          Types.ruleLens := [ {| Types.term := "Lessee"; Types.definition := "The tenant." |} ];
          Types.actionableSteps := ["Pay the rent by May 1."];
          Types.sourceCitation := "Page 1, Paragraph 2" |}.
Proof. split; reflexivity. Qed.

(** C3, as stated, fails: the model answers with an object that has a [tldr]
    and nothing else; the answer is returned as it is, and it lacks three of
    the four fields. *)
Lemma analyzeDocument_returns_unchecked_value :
  analyzeDocument (platform (Some "key") (stopped summaryOnly))
                  "What does this clause mean?" [] "English" (O, [])
  = (Resolved (JObject [("tldr", JString "A lease.")]), (1%nat, [Invoke])) /\
  Types.hasAptusResponseShape (JObject [("tldr", JString "A lease.")]) = false.
Proof. split; reflexivity. Qed.

End AnalyzeFacts.
(* ===================================================================== *)
(** ** Properties of the handlers of [App] *)
(* ===================================================================== *)

Module AppFacts.
Import Types App Samples.

Section WithPlatform.

Context {W : Type}.
Variable P : Gemini.Platform W.

(** C6.  When the awaited work of [handleSubmit] rejects with [err], the
    handler ends with status ERROR, with the message of [err] as [errorMsg]
    (the default text when [err] has no message or an empty one), with
    [result] null, and with the text, files and language it started from. *)
Theorem handleSubmit_failure_keeps_input
  (app : AppState) (st st' : W * list effect) (err : Error) :
  submission P (inputState app) st = (Rejected err, st') ->
  let app' := fst (handleSubmit P app st) in
  status app' = ERROR /\
  errorMsg app' =
    match message err with
    | Some (String c m) => String c m
    | Some EmptyString | None =>
        "An unexpected error occurred while analyzing the document."
    end /\
  result app' = JNull /\
  text (inputState app') = text (inputState app) /\
  files (inputState app') = files (inputState app) /\
  language (inputState app') = language (inputState app).
Proof.
  intros Hsub. unfold handleSubmit. rewrite Hsub. cbn.
  repeat split. unfold errorText, defaultErrorMsg.
  destruct (message err) as [[ | c m] | ]; reflexivity.
Qed.

(** The other outcome: a submission that resolves ends in SUCCESS with the
    response as [result]. *)
Lemma handleSubmit_success
  (app : AppState) (st st' : W * list effect) (response : json) :
  submission P (inputState app) st = (Resolved response, st') ->
  handleSubmit P app st =
  ({| status := SUCCESS; inputState := inputState app; result := response;
      errorMsg := ""; showPrivacy := showPrivacy app; isDarkMode := isDarkMode app |},
   st').
Proof.
  intros Hsub. unfold handleSubmit. rewrite Hsub. reflexivity.
Qed.

End WithPlatform.

Lemma handleSubmit_failure_keeps_input_witness :
  let app' := fst (handleSubmit (platform (Some "key") (stopped fullAnswer))
                                pendingApp (O, [])) in
  status app' = ERROR /\
  errorMsg app' = "Could not process broken.pdf. Please try a different file." /\
  result app' = JNull /\
  text (inputState app') = "What does this clause mean?" /\
  files (inputState app') = [broken] /\
  language (inputState app') = "English".
Proof.
  apply (handleSubmit_failure_keeps_input
           (platform (Some "key") (stopped fullAnswer)) pendingApp (O, []) (O, [])
           (Gemini.couldNotProcess broken)).
  reflexivity.
Defined.

(** C10.  [handleReset] sets the status to IDLE and the result to null and
    empties the text and the files; the language and the dark-mode setting
    stay as they were. *)
Theorem handleReset_clears_request_state (app : AppState) :
  status (handleReset app) = IDLE /\
  result (handleReset app) = JNull /\
  text (inputState (handleReset app)) = "" /\
  files (inputState (handleReset app)) = [] /\
  language (inputState (handleReset app)) = language (inputState app) /\
  isDarkMode (handleReset app) = isDarkMode app.
Proof. repeat split. Qed.

End AppFacts.
(* ===================================================================== *)
(** ** Properties of the upload validation *)
(* ===================================================================== *)

Module InputCardFacts.
Import Types InputCard Spec Samples.

Example MAX_FILE_SIZE_BYTES_value : MAX_FILE_SIZE_BYTES = 20971520.
Proof. reflexivity. Qed.

Example exceedsMessage_huge :
  exceedsMessage huge = dq +++ "huge.pdf" +++ dq +++ " exceeds 20MB.".
Proof. reflexivity. Qed.

(** One round of the loop, in the specification's terms. *)
Lemma validateFile_spec (acc : Validation) (file : DOM.File) :
  validFiles (validateFile acc file) =
    validFiles acc ++ (if supportedUpload file then [file] else []) /\
  errors (validateFile acc file) =
    errors acc ++ (if supportedUpload file then [] else [rejectionMessage file]).
Proof.
  unfold validateFile, supportedUpload, rejectionMessage, MAX_FILE_SIZE_BYTES,
    MAX_FILE_SIZE_MB, exceedsMessage, unsupportedMessage.
  change (20 * 1024 * 1024) with 20971520.
  rewrite Z.gtb_ltb.
  destruct (20971520 <? DOM.size file) eqn:Hbig.
  - apply Z.ltb_lt in Hbig.
    replace (DOM.size file <=? 20971520) with false by (symmetry; apply Z.leb_gt; lia).
    cbn. rewrite app_nil_r. split; reflexivity.
  - apply Z.ltb_ge in Hbig.
    replace (DOM.size file <=? 20971520) with true by (symmetry; apply Z.leb_le; lia).
    cbn [andb].
    destruct (JS.startsWith (DOM.type file) "image/"
              || String.eqb (DOM.type file) "application/pdf"
              || String.eqb (DOM.type file) "text/plain");
      cbn; rewrite app_nil_r; split; reflexivity.
Qed.

Lemma fold_validateFile (submitted : list DOM.File) : forall acc,
  validFiles (fold_left validateFile submitted acc) =
    validFiles acc ++ filter supportedUpload submitted /\
  errors (fold_left validateFile submitted acc) =
    errors acc ++ map rejectionMessage
                      (filter (fun f => negb (supportedUpload f)) submitted).
Proof.
  induction submitted as [ | file rest IH]; intros acc; cbn [fold_left filter map].
  - rewrite !app_nil_r. split; reflexivity.
  - destruct (IH (validateFile acc file)) as [Hv He].
    destruct (validateFile_spec acc file) as [Hv1 He1].
    rewrite Hv, He, Hv1, He1.
    destruct (supportedUpload file); cbn [negb map];
      rewrite <- !app_assoc; split; reflexivity.
Qed.

(** C9.  [handleFiles] appends to the selected files exactly the submitted
    files that are at most 20 MB and of a supported type, in the order they
    were submitted, and reports one message for each of the others, in that
    order; the text and the language are not touched. *)
Theorem handleFiles_admits_supported_uploads
  (submitted : list DOM.File) (card : CardState) (inputState : InputState) :
  let card' := fst (handleFiles submitted (card, inputState)) in
  let inputState' := snd (handleFiles submitted (card, inputState)) in
  files inputState' = files inputState ++ filter supportedUpload submitted /\
  validationErrors card' =
    map rejectionMessage (filter (fun f => negb (supportedUpload f)) submitted) /\
  (forall file, In file submitted ->
     (In file (filter supportedUpload submitted) <->
      DOM.size file <= MAX_FILE_SIZE_BYTES /\
      (JS.startsWith (DOM.type file) "image/" = true \/
       DOM.type file = "application/pdf" \/ DOM.type file = "text/plain"))) /\
  text inputState' = text inputState /\
  language inputState' = language inputState.
Proof.
  unfold handleFiles. cbn [fst snd].
  destruct (fold_validateFile submitted
              {| validFiles := []; errors := []; progress := uploadProgress card |})
    as [Hv He].
  cbn [validFiles errors] in Hv, He. rewrite Hv, He. cbn [app validationErrors].
  split; [ | split; [ | split] ].
  - destruct (filter supportedUpload submitted) as [ | f l] eqn:E; cbn.
    + rewrite app_nil_r. reflexivity.
    + reflexivity.
  - destruct (map rejectionMessage _); reflexivity.
  - intros file Hin. rewrite filter_In. unfold supportedUpload, MAX_FILE_SIZE_BYTES,
      MAX_FILE_SIZE_MB.
    rewrite andb_true_iff, !orb_true_iff, Z.leb_le, !String.eqb_eq. tauto.
  - destruct (filter supportedUpload submitted); split; reflexivity.
Qed.

Example handleFiles_mixed :
  let '(card', inputState') :=
    handleFiles [scan; movie; huge; notes]
                (initialCard, {| text := ""; files := [lease]; language := "English" |}) in
  files inputState' = [lease; scan; notes] /\
  validationErrors card' =
    [ dq +++ "movie.mp4" +++ dq +++ " is not supported.";
      dq +++ "huge.pdf" +++ dq +++ " exceeds 20MB." ].
Proof. split; reflexivity. Qed.

End InputCardFacts.
(* ===================================================================== *)
(** ** One outstanding request *)
(* ===================================================================== *)

Module PageFacts.
Import Types App Samples Spec.

Lemma submitDisabled_loading card input :
  InputCard.submitDisabled card input true = true.
Proof.
  unfold InputCard.submitDisabled. rewrite orb_true_r. reflexivity.
Qed.

Lemma isLoading_PROCESSING (a : AppState) :
  isLoading a = true <-> status a = PROCESSING.
Proof.
  unfold isLoading. destruct (status a); cbn; split; intros H;
    try reflexivity; discriminate.
Qed.

Lemma length_removeAt {A} (l : list A) (index : nat) (a : A) :
  nth_error l index = Some a ->
  List.length (InputCard.removeAt index l) = pred (List.length l).
Proof.
  revert index. induction l as [ | x l IH]; intros [ | i]; cbn; try discriminate.
  - reflexivity.
  - intros H. rewrite (IH i H). destruct l; [destruct i; discriminate | reflexivity].
Qed.

Lemma handleSubmitSettle_status (o : outcome json) (a : AppState) :
  status (handleSubmitSettle o a) = SUCCESS \/ status (handleSubmitSettle o a) = ERROR.
Proof. destruct o; cbn; auto. Qed.

Lemma step_counted (p p' : Page) (ev : Event) :
  counted p -> step p ev = Some p' -> counted p'.
Proof.
  unfold counted. intros Hp Hstep. destruct ev; cbn [step] in Hstep.
  1:{ (* the submit button *)
      destruct (isLoading (app p)) eqn:Hload.
      - rewrite submitDisabled_loading in Hstep. discriminate.
      - destruct (InputCard.submitDisabled _ _ _); [discriminate | ].
        injection Hstep as <-. cbn. rewrite length_app, Hp. reflexivity. }
  1:{ (* a request settles *)
      destruct (nth_error (outstanding p) index) as [input | ] eqn:Hnth; [ | discriminate].
      injection Hstep as <-. cbn [outstanding app].
      rewrite (length_removeAt _ _ _ Hnth), Hp.
      assert (Hlen : (index < List.length (outstanding p))%nat)
        by (apply nth_error_Some; congruence).
      destruct (isLoading (app p)); [ | lia].
      unfold isLoading. destruct (handleSubmitSettle_status o (app p)) as [-> | ->];
        reflexivity. }
  1:{ (* the button that starts over *)
      destruct (AppStatus_eqb (status (app p)) SUCCESS) eqn:Hs; [ | discriminate].
      destruct (JSON.truthy (result (app p))); [ | discriminate].
      injection Hstep as <-. cbn. rewrite Hp. unfold isLoading.
      destruct (status (app p)); try discriminate. reflexivity. }
  (* every other event leaves the status and the requests as they are *)
  all: repeat match type of Hstep with
       | context [if ?b then _ else _] => destruct b; try discriminate
       | context [match nth_error ?l ?i with _ => _ end] =>
           destruct (nth_error l i); try discriminate
       | context [let '(_, _) := ?x in _] => destruct x
       end;
       injection Hstep as <-; exact Hp.
Qed.

Lemma reachable_counted (dark : bool) (p : Page) : reachable dark p -> counted p.
Proof.
  induction 1 as [ | p ev p' _ IH Hstep].
  - reflexivity.
  - eapply step_counted; eassumption.
Qed.

(** C7.  In every page the application can reach there is at most one
    analysis request in flight, and exactly one while the status is
    PROCESSING.  While PROCESSING the submit button is disabled, so a click
    starts nothing; a submission starts only from another status, with no
    request in flight; and the request in flight ends in SUCCESS or ERROR. *)
Theorem one_outstanding_request (dark : bool) (p : Page) :
  reachable dark p ->
  (List.length (outstanding p) <= 1)%nat /\
  (status (app p) = PROCESSING <-> List.length (outstanding p) = 1%nat) /\
  (status (app p) = PROCESSING ->
     InputCard.submitDisabled (card p) (inputState (app p)) (isLoading (app p)) = true /\
     step p ClickSubmit = None) /\
  (forall p', step p ClickSubmit = Some p' ->
     status (app p) <> PROCESSING /\ outstanding p = [] /\
     status (app p') = PROCESSING /\ outstanding p' = [inputState (app p)]) /\
  (forall index o p', step p (RequestSettles index o) = Some p' ->
     (status (app p') = SUCCESS \/ status (app p') = ERROR) /\ outstanding p' = []).
Proof.
  intros Hreach. pose proof (reachable_counted dark p Hreach) as Hc.
  unfold counted in Hc.
  split; [ | split; [ | split; [ | split] ] ].
  - destruct (isLoading (app p)); lia.
  - rewrite <- isLoading_PROCESSING. destruct (isLoading (app p)); split; intros H;
      try reflexivity; try discriminate; lia.
  - intros Hproc. apply isLoading_PROCESSING in Hproc. cbn [step]. rewrite Hproc.
    rewrite submitDisabled_loading. split; reflexivity.
  - intros p' Hstep. cbn [step] in Hstep.
    destruct (isLoading (app p)) eqn:Hload.
    + rewrite submitDisabled_loading in Hstep. discriminate.
    + destruct (InputCard.submitDisabled _ _ _); [discriminate | ].
      injection Hstep as <-. cbn.
      assert (Hnil : outstanding p = []) by (destruct (outstanding p); [reflexivity | discriminate]).
      rewrite Hnil. repeat split.
      intros Hproc. apply isLoading_PROCESSING in Hproc. congruence.
  - intros index o p' Hstep. cbn [step] in Hstep.
    destruct (nth_error (outstanding p) index) as [input | ] eqn:Hnth; [ | discriminate].
    injection Hstep as <-. cbn [app outstanding]. split.
    + apply handleSubmitSettle_status.
    + assert (Hlen : (index < List.length (outstanding p))%nat)
        by (apply nth_error_Some; congruence).
      pose proof (length_removeAt _ _ _ Hnth) as Hrem.
      destruct (InputCard.removeAt index (outstanding p)); [reflexivity | ].
      cbn in Hrem. destruct (isLoading (app p)); lia.
Qed.

Lemma submittedPage_reachable : reachable false submittedPage.
Proof.
  eapply reachable_step with (ev := ClickSubmit).
  - eapply reachable_step with (ev := TypeText "What does this clause mean?").
    + apply reachable_initial.
    + reflexivity.
  - reflexivity.
Qed.

Lemma one_outstanding_request_witness :
  (List.length (outstanding submittedPage) <= 1)%nat /\
  (status (app submittedPage) = PROCESSING <->
   List.length (outstanding submittedPage) = 1%nat) /\
  (status (app submittedPage) = PROCESSING ->
     InputCard.submitDisabled (card submittedPage) (inputState (app submittedPage))
                              (isLoading (app submittedPage)) = true /\
     step submittedPage ClickSubmit = None) /\
  (forall p', step submittedPage ClickSubmit = Some p' ->
     status (app submittedPage) <> PROCESSING /\ outstanding submittedPage = [] /\
     status (app p') = PROCESSING /\
     outstanding p' = [inputState (app submittedPage)]) /\
  (forall index o p', step submittedPage (RequestSettles index o) = Some p' ->
     (status (app p') = SUCCESS \/ status (app p') = ERROR) /\ outstanding p' = []).
Proof.
  apply (one_outstanding_request false submittedPage).
  apply submittedPage_reachable.
Defined.

End PageFacts.
(* ===================================================================== *)
(** ** More on the retry wrapper *)
(* ===================================================================== *)

Module RetryMore.
Import Gemini Samples Spec More.

Lemma invocations_app (a b : list effect) :
  invocations (a ++ b) = (invocations a + invocations b)%nat.
Proof.
  unfold invocations. rewrite filter_app, length_app. reflexivity.
Qed.

Lemma invocations_failedAttempts (k : nat) : forall backoff,
  invocations (failedAttempts k backoff) = k.
Proof.
  induction k as [ | k IH]; intros backoff; [reflexivity | ].
  cbn [failedAttempts]. change (invocations (Invoke :: Delay backoff :: ?l))
    with (S (invocations l)). rewrite IH. reflexivity.
Qed.

Lemma totalDelay_app (a b : list effect) :
  totalDelay (a ++ b) = totalDelay a + totalDelay b.
Proof.
  induction a as [ | [ | ms] a IH]; cbn [app totalDelay]; lia.
Qed.

Lemma totalDelay_failedAttempts (k : nat) : forall backoff,
  totalDelay (failedAttempts k backoff) = backoff * (2 ^ Z.of_nat k - 1).
Proof.
  induction k as [ | k IH]; intros backoff.
  - cbn. lia.
  - cbn [failedAttempts totalDelay]. rewrite IH.
    rewrite Nat2Z.inj_succ, Z.pow_succ_r by lia. lia.
Qed.

Section WithOperation.

Context {W T : Type}.
Variable fn : W -> outcome T * W.

Lemma callWithRetry_log_shape_aux (n : nat) : forall retries backoff w log,
  Z.to_nat retries = n ->
  exists k,
    (k <= n)%nat /\
    snd (snd (callWithRetry fn retries backoff (w, log)))
    = log ++ failedAttempts k backoff ++ [Invoke].
Proof.
  induction n as [ | n IH]; intros retries backoff w log Hn;
    rewrite RetryFacts.callWithRetry_unfold; destruct (fn w) as [[v | error] w'];
    try (exists O; split; [lia | reflexivity]).
  - assert (Hg : givesUp error retries = true).
    { unfold givesUp. replace (retries <=? 0) with true by (symmetry; apply Z.leb_le; lia).
      apply orb_true_r. }
    rewrite Hg. exists O. split; [lia | reflexivity].
  - destruct (givesUp error retries).
    + exists O. split; [lia | reflexivity].
    + destruct (IH (retries - 1) (backoff * 2) w' (log ++ [Invoke; Delay backoff]))
        as (k & Hk & Hlog); [lia | ].
      exists (S k). split; [lia | ].
      rewrite Hlog. cbn [failedAttempts]. rewrite <- !app_assoc. reflexivity.
Qed.

(** Whatever the operation does, a call only appends to the effect log, and
    what it appends is some number [k] of failed attempts, at most
    [retries], each followed by its wait (the first wait is [backoff], and
    each wait is twice the one before), and then one last invocation.  So
    the operation is invoked at least once and at most [retries + 1] times,
    and nothing is ever waited for after the last attempt. *)
Theorem callWithRetry_log_shape (retries backoff : Z) (w : W) (log : list effect) :
  exists k,
    (k <= Z.to_nat retries)%nat /\
    snd (snd (callWithRetry fn retries backoff (w, log)))
    = log ++ failedAttempts k backoff ++ [Invoke] /\
    invocations (failedAttempts k backoff ++ [Invoke]) = S k /\
    totalDelay (failedAttempts k backoff ++ [Invoke]) = backoff * (2 ^ Z.of_nat k - 1).
Proof.
  destruct (callWithRetry_log_shape_aux (Z.to_nat retries) retries backoff w log eq_refl)
    as (k & Hk & Hlog).
  exists k. split; [exact Hk | split; [exact Hlog | split] ].
  - rewrite invocations_app, invocations_failedAttempts. cbn. lia.
  - rewrite totalDelay_app, totalDelay_failedAttempts. cbn. lia.
Qed.

(** With the default arguments a call invokes the operation between one and
    four times and waits 7000 ms at most in all. *)
Theorem callWithRetryDefault_bounds (w : W) (log : list effect) :
  exists added,
    snd (snd (callWithRetryDefault fn (w, log))) = log ++ added /\
    (1 <= invocations added <= 4)%nat /\
    0 <= totalDelay added <= 7000.
Proof.
  unfold callWithRetryDefault.
  destruct (callWithRetry_log_shape_aux 3 MAX_RETRIES INITIAL_RETRY_DELAY w log eq_refl)
    as (k & Hk & Hlog).
  exists (failedAttempts k INITIAL_RETRY_DELAY ++ [Invoke]).
  split; [exact Hlog | ].
  rewrite invocations_app, invocations_failedAttempts.
  rewrite totalDelay_app, totalDelay_failedAttempts.
  unfold INITIAL_RETRY_DELAY.
  assert (Hcases : k = 0%nat \/ k = 1%nat \/ k = 2%nat \/ k = 3%nat) by lia.
  destruct Hcases as [-> | [-> | [-> | ->] ] ]; cbn; lia.
Qed.

(** A call returns the first success: when the first [k] invocations fail
    with errors the handler retries, [k] is within the retries, and the next
    invocation resolves, the call resolves with that value after exactly
    [k + 1] invocations and [k] doubling waits, and does not invoke the
    operation again. *)
Theorem callWithRetry_first_success (n k : nat) : forall backoff w log v,
  (k <= n)%nat ->
  (forall j, (j < k)%nat ->
     exists e, fst (fn (after fn j w)) = Rejected e /\ retryable e = true) ->
  fst (fn (after fn k w)) = Resolved v ->
  callWithRetry fn (Z.of_nat n) backoff (w, log) =
  (Resolved v, (after fn (S k) w, log ++ failedAttempts k backoff ++ [Invoke])).
Proof.
  revert n. induction k as [ | k IH]; intros n backoff w log v Hk Hfail Hok.
  - cbn [after] in *. destruct (fn w) as [o w'] eqn:Hfn. cbn [fst snd] in *. subst o.
    erewrite RetryFacts.callWithRetry_resolved by eassumption. reflexivity.
  - destruct n as [ | n]; [lia | ].
    destruct (Hfail O (Nat.lt_0_succ _)) as (e & He & Hr). cbn [after fst] in He.
    destruct (fn w) as [o w'] eqn:Hfn. cbn [fst] in He. subst o.
    erewrite RetryFacts.callWithRetry_retries; [ | eassumption | ].
    2:{ rewrite RetryFacts.givesUp_retryable by assumption. apply Z.leb_gt. lia. }
    replace (Z.of_nat (S n) - 1) with (Z.of_nat n) by lia.
    assert (Hw' : w' = snd (fn w)) by (rewrite Hfn; reflexivity).
    rewrite (IH n (backoff * 2) w' (log ++ [Invoke; Delay backoff]) v).
    + rewrite Hw', !RetryFacts.after_shift. cbn [failedAttempts].
      rewrite <- !app_assoc. reflexivity.
    + lia.
    + intros j Hj. rewrite Hw', RetryFacts.after_shift. apply Hfail. lia.
    + rewrite Hw', RetryFacts.after_shift. exact Hok.
Qed.

End WithOperation.

Lemma callWithRetry_first_success_witness :
  callWithRetry flaky 3 1000 (O, []) =
  (Resolved 2%nat, (3%nat, [Invoke; Delay 1000; Invoke; Delay 2000; Invoke])).
Proof.
  apply (callWithRetry_first_success flaky 3 2 1000 O [] 2%nat).
  - lia.
  - intros j Hj. assert (Hcases : j = 0%nat \/ j = 1%nat) by lia.
    destruct Hcases as [-> | ->]; eexists; split; reflexivity.
  - reflexivity.
Defined.

End RetryMore.
(* ===================================================================== *)
(** ** More on data URLs and on the canvas *)
(* ===================================================================== *)

Module FilesMore.
Import Gemini Samples Spec More.

Lemma indexOf_split (s : string) (c : ascii) : forall i,
  JS.indexOf s c = Some i ->
  exists head rest,
    s = head +++ String c rest /\ String.length head = i /\ JS.indexOf head c = None.
Proof.
  induction s as [ | a s IH]; intros i; cbn; [discriminate | ].
  destruct (Ascii.eqb_spec a c) as [-> | Hac].
  - intros H. injection H as <-. exists EmptyString, s. repeat split.
  - destruct (JS.indexOf s c) as [j | ] eqn:E; cbn; [ | discriminate].
    intros H. injection H as <-.
    destruct (IH j eq_refl) as (head & rest & -> & Hlen & Hnone).
    exists (String a head), rest. cbn. rewrite Hlen, Hnone.
    apply Ascii.eqb_neq in Hac. rewrite Hac. repeat split.
Qed.

Lemma splitHead_no_separator (s : string) (c : ascii) :
  JS.indexOf (JS.splitHead s c) c = None.
Proof.
  induction s as [ | a s IH]; cbn; [reflexivity | ].
  destruct (Ascii.eqb a c) eqn:E; cbn; [reflexivity | ].
  rewrite E, IH. reflexivity.
Qed.

Lemma splitHead_absent (s : string) (c : ascii) :
  JS.indexOf s c = None -> JS.splitHead s c = s.
Proof.
  induction s as [ | a s IH]; cbn; [reflexivity | ].
  destruct (Ascii.eqb a c); [discriminate | ].
  destruct (JS.indexOf s c); [discriminate | ]. intros _. rewrite IH; reflexivity.
Qed.

Lemma substringFrom_after (head rest : string) (c : ascii) :
  JS.substringFrom (head +++ String c rest) (String.length head + 1) = rest.
Proof.
  unfold JS.substringFrom, JS.substring.
  rewrite FilesFacts.length_append. cbn [String.length].
  rewrite Nat.min_id.
  replace (Nat.min (String.length head + 1) _) with (String.length head + 1)%nat by lia.
  replace (Nat.min (String.length head + 1) _) with (String.length head + 1)%nat by lia.
  replace (Nat.max (String.length head + 1) _ - (String.length head + 1))%nat
    with (String.length rest) by lia.
  rewrite FilesFacts.substring_skip. cbn [String.substring].
  apply FilesFacts.substring_whole.
Qed.

(** [parseDataUrl] looks for nothing but the first comma.  It rejects, with
    "Invalid Data URL format", exactly the texts without a comma; otherwise
    the data it returns is all the text after the first comma (later commas
    stay in the data) and the MIME type it returns has no semicolon. *)
Theorem parseDataUrl_first_comma (dataUrl : string) :
  match parseDataUrl dataUrl with
  | Resolved (mime, data) =>
      exists head,
        dataUrl = head +++ "," +++ data /\
        JS.indexOf head "," = None /\
        JS.indexOf mime ";" = None
  | Rejected e =>
      JS.indexOf dataUrl "," = None /\ e = newError "Invalid Data URL format"
  end.
Proof.
  unfold parseDataUrl.
  destruct (JS.indexOf dataUrl ",") as [commaIndex | ] eqn:E; [ | split; reflexivity].
  destruct (indexOf_split _ _ _ E) as (head & rest & -> & Hlen & Hnone).
  exists head. split; [ | split; [exact Hnone | apply splitHead_no_separator] ].
  rewrite <- Hlen, substringFrom_after. reflexivity.
Qed.

(** The MIME type is what stands between "data:" and the first semicolon or
    the comma: parameters such as ";base64" or ";charset=utf-8" are
    dropped. *)
Theorem parseDataUrl_drops_parameters (mime params payload : string) :
  JS.indexOf mime "," = None ->
  JS.indexOf mime ";" = None ->
  JS.indexOf params "," = None ->
  parseDataUrl ("data:" +++ mime +++ ";" +++ params +++ "," +++ payload)
  = Resolved (mime, payload) /\
  parseDataUrl ("data:" +++ mime +++ "," +++ payload) = Resolved (mime, payload).
Proof.
  intros Hcomma Hsemi Hparams. split.
  - assert (Hurl : "data:" +++ mime +++ ";" +++ params +++ "," +++ payload
                   = ("data:" +++ mime +++ ";" +++ params) +++ "," +++ payload).
    { rewrite !FilesFacts.append_assoc. reflexivity. }
    rewrite Hurl, FilesFacts.parseDataUrl_split.
    + f_equal. f_equal.
      change ("data:" +++ mime +++ ";" +++ params)
        with ("data:" +++ (mime +++ String ";" params)).
      rewrite FilesFacts.length_append. cbn [String.length].
      replace (5 + String.length (mime +++ String ";" params) - 5)%nat
        with (String.length (mime +++ String ";" params)) by lia.
      change 5%nat with (String.length "data:" + 0)%nat.
      rewrite FilesFacts.substring_skip, FilesFacts.substring_whole.
      apply FilesFacts.splitHead_append. assumption.
    + cbn. rewrite FilesFacts.indexOf_append_absent by assumption.
      cbn. rewrite Hparams. reflexivity.
    + rewrite FilesFacts.length_append. cbn. lia.
  - assert (Hurl : "data:" +++ mime +++ "," +++ payload
                   = ("data:" +++ mime) +++ "," +++ payload).
    { rewrite !FilesFacts.append_assoc. reflexivity. }
    rewrite Hurl, FilesFacts.parseDataUrl_split.
    + f_equal. f_equal.
      rewrite FilesFacts.length_append. cbn [String.length].
      replace (5 + String.length mime - 5)%nat with (String.length mime) by lia.
      change 5%nat with (String.length "data:" + 0)%nat.
      rewrite FilesFacts.substring_skip, FilesFacts.substring_whole.
      apply splitHead_absent. assumption.
    + cbn. rewrite Hcomma. reflexivity.
    + rewrite FilesFacts.length_append. cbn. lia.
Qed.

Lemma parseDataUrl_drops_parameters_witness :
  parseDataUrl ("data:" +++ "text/plain" +++ ";" +++ "charset=utf-8;base64" +++ ","
                +++ "SGVsbG8sIHdvcmxk")
  = Resolved ("text/plain", "SGVsbG8sIHdvcmxk") /\
  parseDataUrl ("data:" +++ "text/plain" +++ "," +++ "SGVsbG8sIHdvcmxk")
  = Resolved ("text/plain", "SGVsbG8sIHdvcmxk").
Proof.
  apply (parseDataUrl_drops_parameters "text/plain" "charset=utf-8;base64"
                                       "SGVsbG8sIHdvcmxk"); reflexivity.
Defined.

End FilesMore.
(* ===================================================================== *)
(** ** More on the request and on [analyzeDocument] *)
(* ===================================================================== *)

Module AnalyzeMore.
Import Gemini Samples Spec More.

(** *** From processed files to request parts *)

Lemma truthy_append_left (a b : string) : JS.truthy a = true -> JS.truthy (a +++ b) = true.
Proof. destruct a; [discriminate | reflexivity]. Qed.

Section Parts.

Context {W : Type}.
Variable P : Platform W.

(** What [processFilesForGemini] makes of a file and what the loop of
    [analyzeDocument] then sends.  A plain-text file always yields one text
    part, even when the file is empty.  Any other file yields one inline
    part, unless the MIME type or the data taken from its data URL is empty:
    then the file is left out of the request and nothing is reported. *)
Theorem processed_file_in_request (file : DOM.File) (part : ProcessedPart) :
  partFor P file part ->
  (DOM.type file = "text/plain" ->
   exists content,
     readAsText P file = Resolved content /\
     filePart part =
       [GenAI.TextPart ("[Attached File: " +++ DOM.name file +++ "]" +++ newline
                        +++ content +++ newline +++ "---")]) /\
  (DOM.type file <> "text/plain" ->
   exists mime base64,
     part = inlinePartOf mime base64 /\
     filePart part =
       match mime, base64 with
       | String _ _, String _ _ => [GenAI.InlineData mime base64]
       | _, _ => []
       end).
Proof.
  intros [content Htxt Hread | imgWidth imgHeight dataUrl mime dat Htxt Himg Hc Hp
          | dataUrl mime dat Htxt Himg Hr Hp].
  - split; [ | congruence]. intros _. exists content. split; [assumption | reflexivity].
  - split; [congruence | ]. intros _. exists mime, dat. split; [reflexivity | ].
    destruct mime, dat; reflexivity.
  - split; [congruence | ]. intros _. exists mime, dat. split; [reflexivity | ].
    destruct mime, dat; reflexivity.
Qed.

End Parts.

Lemma processed_file_in_request_witness :
  (DOM.type notes = "text/plain" ->
   exists content,
     readAsText (platform None (stopped fullAnswer)) notes = Resolved content /\
     filePart (textPartOf notes "Rent is due on May 1.") =
       [GenAI.TextPart ("[Attached File: " +++ DOM.name notes +++ "]" +++ newline
                        +++ content +++ newline +++ "---")]) /\
  (DOM.type notes <> "text/plain" ->
   exists mime base64,
     textPartOf notes "Rent is due on May 1." = inlinePartOf mime base64 /\
     filePart (textPartOf notes "Rent is due on May 1.") =
       match mime, base64 with
       | String _ _, String _ _ => [GenAI.InlineData mime base64]
       | _, _ => []
       end).
Proof.
  apply (processed_file_in_request (platform None (stopped fullAnswer)) notes
                                   (textPartOf notes "Rent is due on May 1.")).
  apply partFor_text; reflexivity.
Defined.

(** *** The request *)

Lemma prefix_append (s b : string) : String.prefix s (s +++ b) = true.
Proof.
  induction s as [ | c s IH]; cbn; [destruct b; reflexivity | ].
  destruct (Ascii.ascii_dec c c); [exact IH | congruence].
Qed.

Lemma includes_prefix (t s : string) : String.prefix s t = true -> JS.includes t s = true.
Proof. intros H. destruct t; cbn [JS.includes]; rewrite H; reflexivity. Qed.

Lemma includes_skip (a t s : string) :
  JS.includes t s = true -> JS.includes (a +++ t) s = true.
Proof.
  intros H. induction a as [ | c a IH]; cbn [append]; [exact H | ].
  cbn [JS.includes]. rewrite IH. apply orb_true_r.
Qed.

(** Every request asks for JSON under [responseSchema] and carries the parts
    it was built from, and its system instruction contains the line that
    names the target language. *)
Theorem request_names_language (parts : list GenAI.Part) (targetLanguage : string) :
  JS.includes (GenAI.systemInstruction (buildRequest parts targetLanguage))
              ("- Provide the output in the target language: " +++ targetLanguage +++ ".")
  = true /\
  GenAI.responseMimeType (buildRequest parts targetLanguage) = "application/json" /\
  GenAI.responseSchema (buildRequest parts targetLanguage) = responseSchema /\
  GenAI.parts (buildRequest parts targetLanguage) = parts.
Proof.
  split; [ | repeat split].
  cbn [buildRequest GenAI.systemInstruction]. unfold systemInstruction.
  do 19 apply includes_skip.
  apply includes_prefix.
  match goal with
  | |- String.prefix ?s (?t +++ ?l +++ ?d +++ ?b) = true =>
      replace (t +++ l +++ d +++ b) with (s +++ b)
        by (rewrite !FilesFacts.append_assoc; reflexivity)
  end.
  apply prefix_append.
Qed.

(** *** The model call and what follows it *)

Lemma checkFinishReason_normal (response : GenAI.GenerateContentResponse) :
  checkFinishReason response = Resolved tt -> finishedNormally response.
Proof.
  unfold checkFinishReason, finishedNormally, firstFinishReason.
  destruct (GenAI.candidates response) as [ [ | c cs] | ]; auto.
  destruct (GenAI.finishReason c) as [reason | ]; auto.
  destruct reason as [ | a reason]; auto.
  cbn [JS.truthy andb].
  destruct (String.eqb_spec (String a reason) "STOP") as [-> | Hne]; auto.
  cbn [negb].
  destruct (String.eqb (String a reason) "SAFETY"); [discriminate | ].
  destruct (String.eqb (String a reason) "RECITATION"); discriminate.
Qed.

Lemma explain_hides_codes (error : Error) :
  messageIncludes (explain error) "400" = false /\
  messageIncludes (explain error) "429" = false /\
  messageIncludes (explain error) "500" = false /\
  messageIncludes (explain error) "503" = false.
Proof.
  unfold explain.
  destruct (messageIncludes error "400") eqn:E400; [repeat split | ].
  destruct (messageIncludes error "429") eqn:E429; [repeat split | ].
  destruct (messageIncludes error "500") eqn:E500; [repeat split | ].
  destruct (messageIncludes error "503") eqn:E503; [repeat split | ].
  cbn [orb]. repeat split; assumption.
Qed.

Section WithPlatform.

Context {W : Type}.
Variable P : Platform W.

(** How often [analyzeDocument] calls the model and how long it waits, in
    every case: it only appends to the effect log; it makes no call when the
    API key is absent or there is no part to send, and otherwise at least
    one call; it never makes more than four calls, nor waits more than
    7000 ms in all. *)
Theorem analyzeDocument_call_budget
  (text : string) (files : list ProcessedPart) (targetLanguage : string)
  (w : W) (log : list effect) :
  exists added,
    snd (snd (analyzeDocument P text files targetLanguage (w, log))) = log ++ added /\
    (invocations added <= 4)%nat /\
    0 <= totalDelay added <= 7000 /\
    (apiKeyAbsent P \/ buildParts text files = [] -> added = []) /\
    (~ apiKeyAbsent P -> buildParts text files <> [] -> (1 <= invocations added)%nat).
Proof.
  unfold analyzeDocument.
  destruct (truthyOpt (API_KEY P)) eqn:Ekey; cbn [negb].
  2:{ exists []. rewrite app_nil_r. repeat split; try (cbn; lia).
      intros Hkey. exfalso. apply Hkey, AnalyzeFacts.truthyOpt_absent. assumption. }
  assert (Hkey : ~ apiKeyAbsent P).
  { intros H. apply AnalyzeFacts.truthyOpt_absent in H. congruence. }
  destruct (buildParts text files) as [ | part parts] eqn:Eparts; cbn [List.length Nat.eqb].
  { exists []. rewrite app_nil_r. repeat split; try (cbn; lia). congruence. }
  destruct (RetryMore.callWithRetry_log_shape_aux
              (generateContent P (buildRequest (part :: parts) targetLanguage))
              3 MAX_RETRIES INITIAL_RETRY_DELAY w log eq_refl) as (k & Hk & Hlog).
  unfold callWithRetryDefault.
  destruct (callWithRetry _ MAX_RETRIES INITIAL_RETRY_DELAY (w, log)) as [called st'].
  cbn [snd] in Hlog.
  exists (failedAttempts k INITIAL_RETRY_DELAY ++ [Invoke]).
  split; [destruct (bind called _); exact Hlog | ].
  rewrite RetryMore.invocations_app, RetryMore.invocations_failedAttempts.
  rewrite RetryMore.totalDelay_app, RetryMore.totalDelay_failedAttempts.
  unfold INITIAL_RETRY_DELAY.
  assert (Hcases : k = 0%nat \/ k = 1%nat \/ k = 2%nat \/ k = 3%nat) by lia.
  split; [ | split; [ | split] ].
  - cbn. lia.
  - destruct Hcases as [-> | [-> | [-> | ->] ] ]; cbn; lia.
  - intros [H | H]; [contradiction | discriminate].
  - intros _ _. cbn. lia.
Qed.

Lemma analyzeDocument_answered
  (text : string) (files : list ProcessedPart) (targetLanguage : string)
  (w w' : W) (log : list effect) (response : GenAI.GenerateContentResponse) :
  ~ apiKeyAbsent P ->
  buildParts text files <> [] ->
  generateContent P (buildRequest (buildParts text files) targetLanguage) w
  = (Resolved response, w') ->
  analyzeDocument P text files targetLanguage (w, log) =
  (match readResponse P response with
   | Resolved v => Resolved v
   | Rejected error => Rejected (explain error)
   end,
   (w', log ++ [Invoke])).
Proof.
  intros Hkey Hparts Hgen. unfold analyzeDocument.
  destruct (truthyOpt (API_KEY P)) eqn:Ekey;
    [ | exfalso; apply Hkey, AnalyzeFacts.truthyOpt_absent; assumption].
  cbn [negb].
  destruct (buildParts text files) as [ | part parts] eqn:Eparts; [congruence | ].
  cbn [List.length Nat.eqb]. unfold callWithRetryDefault.
  rewrite (RetryFacts.callWithRetry_resolved _ _ _ _ _ _ _ Hgen).
  cbn [bind]. destruct (readResponse P response); reflexivity.
Qed.

(** Once the model has answered, [analyzeDocument] makes no further call,
    whatever the answer: the answer is read, and a blocked, empty or
    malformed answer is reported through the [catch] block, not retried. *)
Theorem analyzeDocument_no_retry_after_answer
  (text : string) (files : list ProcessedPart) (targetLanguage : string)
  (w w' : W) (log : list effect) (response : GenAI.GenerateContentResponse) :
  ~ apiKeyAbsent P ->
  buildParts text files <> [] ->
  generateContent P (buildRequest (buildParts text files) targetLanguage) w
  = (Resolved response, w') ->
  analyzeDocument P text files targetLanguage (w, log) =
  (match readResponse P response with
   | Resolved v => Resolved v
   | Rejected error => Rejected (explain error)
   end,
   (w', log ++ [Invoke])).
Proof.
  intros Hkey Hparts Hgen. apply analyzeDocument_answered; assumption.
Qed.

(** What [analyzeDocument] rejects with never shows the status codes 400,
    429, 500 or 503 in its message: the guards have their own texts, and the
    [catch] block replaces every message that has one of the codes. *)
Theorem analyzeDocument_hides_status_codes
  (text : string) (files : list ProcessedPart) (targetLanguage : string)
  (st st' : W * list effect) (err : Error) :
  analyzeDocument P text files targetLanguage st = (Rejected err, st') ->
  messageIncludes err "400" = false /\
  messageIncludes err "429" = false /\
  messageIncludes err "500" = false /\
  messageIncludes err "503" = false.
Proof.
  unfold analyzeDocument.
  destruct (negb (truthyOpt (API_KEY P))).
  { intros H. injection H as <- _. repeat split. }
  destruct (Nat.eqb _ 0).
  { intros H. injection H as <- _. repeat split. }
  destruct (callWithRetryDefault _ st) as [called st1].
  destruct (bind called _) as [v | error]; [discriminate | ].
  intros H. injection H as <- _. apply explain_hides_codes.
Qed.

(** A value is returned only for an answer that finished normally and has a
    text: the first candidate, if there is one, gives no finish reason or
    STOP, and the response text is not empty. *)
Theorem analyzeDocument_result_requires_stop
  (text : string) (files : list ProcessedPart) (targetLanguage : string)
  (st st' : W * list effect) (v : json) :
  analyzeDocument P text files targetLanguage st = (Resolved v, st') ->
  exists response,
    callWithRetryDefault
      (generateContent P (buildRequest (buildParts text files) targetLanguage)) st
    = (Resolved response, st') /\
    finishedNormally response /\
    exists c responseText, GenAI.text response = Some (String c responseText).
Proof.
  intros H. unfold analyzeDocument in H.
  destruct (negb (truthyOpt (API_KEY P))); [discriminate | ].
  destruct (Nat.eqb _ 0); [discriminate | ].
  destruct (callWithRetryDefault _ st) as [called st1] eqn:Hcall.
  destruct called as [response | e]; cbn [bind] in H; [ | discriminate].
  unfold readResponse in H.
  destruct (checkFinishReason response) as [ [] | e] eqn:Hfin; cbn [bind] in H;
    [ | discriminate].
  destruct (GenAI.text response) as [ [ | c responseText] | ] eqn:Htext;
    cbn [JS.truthy negb] in H; try discriminate.
  destruct (JSON_parse P _); [ | discriminate].
  injection H as _ <-.
  exists response. split; [reflexivity | ].
  split; [apply checkFinishReason_normal; assumption | eauto].
Qed.

End WithPlatform.

Lemma analyzeDocument_no_retry_after_answer_witness :
  analyzeDocument (platform (Some "key") (stopped "Sorry, I cannot help."))
                  "What does this clause mean?" [] "English" (O, []) =
  (Rejected (mkError (Some "Unexpected token in JSON") None), (1%nat, [Invoke])).
Proof.
  apply (analyzeDocument_no_retry_after_answer
           (platform (Some "key") (stopped "Sorry, I cannot help."))
           "What does this clause mean?" [] "English" O 1%nat []
           (stopped "Sorry, I cannot help.")).
  - intros [H | H]; discriminate H.
  - discriminate.
  - reflexivity.
Defined.

Lemma analyzeDocument_hides_status_codes_witness :
  messageIncludes (newError "Gemini service is temporarily unavailable. Please try again.")
                  "400" = false /\
  messageIncludes (newError "Gemini service is temporarily unavailable. Please try again.")
                  "429" = false /\
  messageIncludes (newError "Gemini service is temporarily unavailable. Please try again.")
                  "500" = false /\
  messageIncludes (newError "Gemini service is temporarily unavailable. Please try again.")
                  "503" = false.
Proof.
  apply (analyzeDocument_hides_status_codes
           (failingPlatform (mkError (Some "503 Service Unavailable") (Some 503)))
           "What does this clause mean?" [] "English" (O, [])
           (4%nat, [Invoke; Delay 1000; Invoke; Delay 2000; Invoke; Delay 4000; Invoke])).
  reflexivity.
Defined.

Lemma analyzeDocument_result_requires_stop_witness :
  exists response,
    callWithRetryDefault
      (generateContent (platform (Some "key") (stopped fullAnswer))
         (buildRequest (buildParts "What does this clause mean?" []) "English")) (O, [])
    = (Resolved response, (1%nat, [Invoke])) /\
    finishedNormally response /\
    exists c responseText, GenAI.text response = Some (String c responseText).
Proof.
  apply (analyzeDocument_result_requires_stop
           (platform (Some "key") (stopped fullAnswer))
           "What does this clause mean?" [] "English" (O, []) (1%nat, [Invoke])
           fullAnswerValue).
  reflexivity.
Defined.

(** *** The schema and the interface *)

Lemma conforms_traverse_asString (l : list json) (strs : list string) :
  Types.traverse Types.asString l = Some strs ->
  forallb (GenAI.conforms (fieldSchema GenAI.STRING None)) l = true.
Proof.
  revert strs. induction l as [ | v l IH]; intros strs; cbn; [reflexivity | ].
  destruct v; cbn; try discriminate.
  destruct (Types.traverse Types.asString l) as [bs | ]; [ | discriminate].
  intros _. apply (IH bs). reflexivity.
Qed.

Lemma conforms_asRuleLensItem (v : json) (item : Types.RuleLensItem) :
  Types.asRuleLensItem v = Some item -> GenAI.conforms ruleLensItemSchema v = true.
Proof.
  destruct v as [ | | | | | m]; try discriminate. cbn.
  destruct (getMember m "term") as [ [ | | | t | | ] | ];
    destruct (getMember m "definition") as [ [ | | | d | | ] | ];
    cbn; try discriminate. reflexivity.
Qed.

Lemma conforms_traverse_asRuleLensItem (l : list json) (items : list Types.RuleLensItem) :
  Types.traverse Types.asRuleLensItem l = Some items ->
  forallb (GenAI.conforms ruleLensItemSchema) l = true.
Proof.
  revert items. induction l as [ | v l IH]; intros items;
    cbn [Types.traverse forallb]; [reflexivity | ].
  destruct (Types.asRuleLensItem v) as [item | ] eqn:Ev; [ | discriminate].
  destruct (Types.traverse Types.asRuleLensItem l) as [bs | ]; [ | discriminate].
  intros _. rewrite (conforms_asRuleLensItem v item Ev), (IH bs eq_refl). reflexivity.
Qed.

(** The schema sent with the request and the interface the result is cast to
    describe the same values: a value conforms to [responseSchema] exactly
    when it can be read as an [AptusResponse]. *)
Theorem responseSchema_matches_interface (v : json) :
  GenAI.conforms responseSchema v = true <-> Types.hasAptusResponseShape v = true.
Proof.
  split; [apply AnalyzeFacts.responseSchema_shape | ].
  destruct v as [ | | | | | m]; try discriminate.
  unfold Types.hasAptusResponseShape, Types.asAptusResponse. cbn.
  destruct (getMember m "tldr") as [ [ | | | t | | ] | ];
    destruct (getMember m "ruleLens") as [ [ | | | | rl | ] | ];
    destruct (getMember m "actionableSteps") as [ [ | | | | steps | ] | ];
    destruct (getMember m "sourceCitation") as [ [ | | | c | | ] | ];
    cbn; try discriminate.
  destruct (Types.traverse Types.asRuleLensItem rl) as [items | ] eqn:Erl; [ | discriminate].
  destruct (Types.traverse Types.asString steps) as [strs | ] eqn:Esteps; [ | discriminate].
  intros _.
  pose proof (conforms_traverse_asRuleLensItem rl items Erl) as Hrl.
  pose proof (conforms_traverse_asString steps strs Esteps) as Hsteps.
  cbn in Hrl, Hsteps. rewrite Hrl, Hsteps. reflexivity.
Qed.

End AnalyzeMore.
(* ===================================================================== *)
(** ** More on the input card *)
(* ===================================================================== *)

Module UploadMore.
Import Types InputCard Samples Spec More.

(** *** File ids *)

Lemma indexOf_append_present (a y : string) (c : ascii) :
  JS.indexOf (a +++ String c y) c <> None.
Proof.
  induction a as [ | x a IH]; cbn.
  - rewrite Ascii.eqb_refl. discriminate.
  - destruct (Ascii.eqb x c); [discriminate | ].
    destruct (JS.indexOf (a +++ String c y) c); [discriminate | contradiction].
Qed.

(** Two texts that end in a separator followed by a separator-free tail are
    equal only if their heads and their tails are. *)
Lemma split_last (c : ascii) (a : string) : forall b x y,
  JS.indexOf x c = None -> JS.indexOf y c = None ->
  a +++ String c x = b +++ String c y -> a = b /\ x = y.
Proof.
  induction a as [ | u a IH]; intros [ | v b] x y Hx Hy H; cbn in H.
  - injection H as ->. split; reflexivity.
  - injection H as <- ->. exfalso. apply (indexOf_append_present b y c). assumption.
  - injection H as -> <-. exfalso. apply (indexOf_append_present a x c). assumption.
  - injection H as -> H. destruct (IH b x y Hx Hy H) as [-> ->]. split; reflexivity.
Qed.

Lemma string_of_uint_digits (d : Decimal.uint) :
  JS.indexOf (NilEmpty.string_of_uint d) "-" = None.
Proof.
  induction d; cbn; try rewrite IHd; reflexivity.
Qed.

Lemma numberToString_digits (n : Z) :
  0 <= n -> JS.indexOf (numberToString n) "-" = None.
Proof.
  intros Hn. unfold numberToString.
  destruct n as [ | p | p]; [reflexivity | | lia].
  cbn [Z.to_int NilZero.string_of_int]. unfold NilZero.string_of_uint.
  pose proof (DecimalPos.Unsigned.to_uint_nonnil p) as Hnil.
  destruct (Pos.to_uint p) eqn:E; try contradiction;
    rewrite <- E; apply string_of_uint_digits.
Qed.

Lemma numberToString_inj (n m : Z) : numberToString n = numberToString m -> n = m.
Proof.
  unfold numberToString. intros H.
  apply DecimalZ.to_int_inj.
  assert (Hnn : forall z, Z.to_int z <> Decimal.Pos Decimal.Nil /\
                          Z.to_int z <> Decimal.Neg Decimal.Nil).
  { intros [ | p | p]; cbn; split; try discriminate; intros E; injection E as E;
      apply (DecimalPos.Unsigned.to_uint_nonnil p); assumption. }
  destruct (Hnn n) as [Hn1 Hn2]. destruct (Hnn m) as [Hm1 Hm2].
  pose proof (NilZero.isi _ Hn1 Hn2) as En.
  pose proof (NilZero.isi _ Hm1 Hm2) as Em.
  rewrite H in En. congruence.
Qed.

Lemma getFileId_shape (f : DOM.File) :
  getFileId f =
  (DOM.name f +++ String "-" (numberToString (DOM.size f)))
  +++ String "-" (numberToString (DOM.lastModified f)).
Proof.
  unfold getFileId. rewrite FilesFacts.append_assoc. reflexivity.
Qed.

(** For files with non-negative size and modification time, the id tells the
    name, the size and the modification time apart, and nothing else: two
    files have the same id exactly when they agree on all three (their MIME
    types and contents may differ). *)
Theorem getFileId_same_iff (f g : DOM.File) :
  0 <= DOM.size f -> 0 <= DOM.lastModified f ->
  0 <= DOM.size g -> 0 <= DOM.lastModified g ->
  (getFileId f = getFileId g <->
   DOM.name f = DOM.name g /\ DOM.size f = DOM.size g /\
   DOM.lastModified f = DOM.lastModified g).
Proof.
  intros Hsf Hlf Hsg Hlg. split.
  - intros H. rewrite !getFileId_shape in H.
    apply split_last in H as [H Hl];
      [ | apply numberToString_digits; assumption
        | apply numberToString_digits; assumption ].
    apply split_last in H as [Hn Hs];
      [ | apply numberToString_digits; assumption
        | apply numberToString_digits; assumption ].
    apply numberToString_inj in Hl. apply numberToString_inj in Hs. auto.
  - intros (Hn & Hs & Hl). unfold getFileId. rewrite Hn, Hs, Hl. reflexivity.
Qed.

Lemma getFileId_same_iff_witness :
  getFileId scan = getFileId (DOM.mkFile "scan.png" "image/jpeg" 4000000 0) <->
  DOM.name scan = DOM.name (DOM.mkFile "scan.png" "image/jpeg" 4000000 0) /\
  DOM.size scan = DOM.size (DOM.mkFile "scan.png" "image/jpeg" 4000000 0) /\
  DOM.lastModified scan = DOM.lastModified (DOM.mkFile "scan.png" "image/jpeg" 4000000 0).
Proof.
  apply (getFileId_same_iff scan (DOM.mkFile "scan.png" "image/jpeg" 4000000 0));
    cbn; lia.
Defined.

(** *** Adding and removing files *)

Lemma progressOf_deleteProgress (up : list (string * number)) (id : string) :
  progressOf (deleteProgress up id) id = None.
Proof.
  unfold deleteProgress. induction up as [ | [k v] up IH]; cbn; [reflexivity | ].
  destruct (String.eqb k id) eqn:E; cbn; [exact IH | ].
  rewrite E. exact IH.
Qed.

Lemma removeAt_last {A} (l : list A) (a : A) : removeAt (List.length l) (l ++ [a]) = l.
Proof. induction l as [ | x l IH]; cbn; [reflexivity | rewrite IH; reflexivity]. Qed.

Lemma nth_error_last {A} (l : list A) (a : A) : nth_error (l ++ [a]) (List.length l) = Some a.
Proof. induction l as [ | x l IH]; cbn; [reflexivity | exact IH]. Qed.

Lemma In_removeAt {A} (l : list A) : forall i j (a : A),
  nth_error l j = Some a -> i <> j -> In a (removeAt i l).
Proof.
  induction l as [ | x l IH]; intros i j a Hj Hij.
  - destruct j; discriminate.
  - destruct i as [ | i], j as [ | j]; cbn in *.
    + contradiction.
    + eapply nth_error_In. eassumption.
    + left. congruence.
    + right. apply (IH i j); [assumption | congruence].
Qed.

(** Files accepted in one call of [handleFiles] all stand at progress 0
    when the call ends. *)
Lemma fold_validateFile_progress (submitted : list DOM.File) : forall acc,
  (forall f, In f (validFiles acc) -> progressOf (progress acc) (getFileId f) = Some 0%float) ->
  forall f, In f (validFiles (fold_left validateFile submitted acc)) ->
            progressOf (progress (fold_left validateFile submitted acc)) (getFileId f)
            = Some 0%float.
Proof.
  induction submitted as [ | file rest IH]; intros acc Hacc; cbn [fold_left];
    [exact Hacc | ].
  apply IH. intros f Hf. unfold validateFile in *.
  destruct (DOM.size file >? MAX_FILE_SIZE_BYTES); cbn in *; [auto | ].
  destruct (JS.startsWith (DOM.type file) "image/"
            || String.eqb (DOM.type file) "application/pdf"
            || String.eqb (DOM.type file) "text/plain"); cbn in *; [ | auto].
  destruct (String.eqb (getFileId file) (getFileId f)) eqn:E; [reflexivity | ].
  apply in_app_or in Hf as [Hf | [-> | [] ] ]; [auto | ].
  rewrite String.eqb_refl in E. discriminate.
Qed.

Lemma handleFiles_files_appended
  (submitted : list DOM.File) (card : CardState) (inputState : InputState) :
  files (snd (handleFiles submitted (card, inputState)))
  = files inputState ++ filter supportedUpload submitted /\
  text (snd (handleFiles submitted (card, inputState))) = text inputState /\
  language (snd (handleFiles submitted (card, inputState))) = language inputState.
Proof.
  unfold handleFiles. cbn [fst snd].
  destruct (InputCardFacts.fold_validateFile submitted
              {| validFiles := []; errors := []; progress := uploadProgress card |})
    as [Hv _].
  cbn [validFiles app] in Hv. rewrite Hv.
  destruct (filter supportedUpload submitted); cbn.
  - rewrite app_nil_r. repeat split.
  - repeat split.
Qed.

(** As soon as [handleFiles] accepts a file the card counts as uploading and
    the submit button is disabled, whatever was selected before: the
    accepted files start at progress 0. *)
Theorem handleFiles_accepted_blocks_submit
  (submitted : list DOM.File) (card : CardState) (inputState : InputState) :
  (exists f, In f submitted /\ supportedUpload f = true) ->
  let card' := fst (handleFiles submitted (card, inputState)) in
  let inputState' := snd (handleFiles submitted (card, inputState)) in
  isUploading card' inputState' = true /\
  forall isLoading, submitDisabled card' inputState' isLoading = true.
Proof.
  intros (f & Hin & Hsup). cbv zeta.
  assert (Hup : isUploading (fst (handleFiles submitted (card, inputState)))
                            (snd (handleFiles submitted (card, inputState))) = true).
  { unfold handleFiles. cbn [fst snd].
    set (acc := fold_left validateFile submitted
                  {| validFiles := []; errors := []; progress := uploadProgress card |}).
    assert (Hvalid : In f (validFiles acc)).
    { unfold acc.
      destruct (InputCardFacts.fold_validateFile submitted
                  {| validFiles := []; errors := []; progress := uploadProgress card |})
        as [Hv _].
      rewrite Hv. cbn [validFiles app]. apply filter_In. split; assumption. }
    assert (Hzero : progressOf (progress acc) (getFileId f) = Some 0%float).
    { unfold acc. apply fold_validateFile_progress; [intros g [] | exact Hvalid]. }
    unfold isUploading. cbn [uploadProgress].
    apply existsb_exists. exists f. split.
    - destruct (validFiles acc) as [ | g l] eqn:E; [destruct Hvalid | ].
      cbn [List.length Nat.ltb Nat.leb files]. apply in_or_app. right. exact Hvalid.
    - unfold progressOrZero. rewrite Hzero. reflexivity. }
  split; [exact Hup | ].
  intros isLoading. unfold submitDisabled. rewrite Hup.
  rewrite orb_true_r. reflexivity.
Qed.

Lemma handleFiles_accepted_blocks_submit_witness :
  let card' := fst (handleFiles [movie; scan] (initialCard, mkInputState "" [] "English")) in
  let inputState' :=
    snd (handleFiles [movie; scan] (initialCard, mkInputState "" [] "English")) in
  isUploading card' inputState' = true /\
  forall isLoading, submitDisabled card' inputState' isLoading = true.
Proof.
  apply (handleFiles_accepted_blocks_submit [movie; scan] initialCard
                                            (mkInputState "" [] "English")).
  exists scan. split; [right; left; reflexivity | reflexivity].
Defined.

(** Adding one supported file and then removing the file at the position it
    was given restores the selected files, leaves the text and the language
    alone, and leaves no progress entry under the file's id. *)
Theorem handleFiles_removeFile_round_trip
  (file : DOM.File) (card : CardState) (inputState : InputState) :
  supportedUpload file = true ->
  let added := handleFiles [file] (card, inputState) in
  let removed := removeFile (List.length (files inputState)) added in
  files (snd added) = files inputState ++ [file] /\
  files (snd removed) = files inputState /\
  text (snd removed) = text inputState /\
  language (snd removed) = language inputState /\
  progressOf (uploadProgress (fst removed)) (getFileId file) = None.
Proof.
  intros Hsup. cbv zeta.
  destruct (handleFiles_files_appended [file] card inputState)
    as (Hfiles & Htext & Hlang).
  cbn [filter] in Hfiles. rewrite Hsup in Hfiles.
  destruct (handleFiles [file] (card, inputState)) as [card1 input1].
  cbn [fst snd] in *. unfold removeFile. cbn [fst snd files text language].
  rewrite Hfiles, removeAt_last, nth_error_last. cbn [uploadProgress].
  repeat split; try assumption. apply progressOf_deleteProgress.
Qed.

(** Removing a file deletes the progress entry of its id.  If another
    selected file has the same id (the same file chosen twice, say), that
    file is back at progress 0: the card counts as uploading again and the
    submit button is disabled. *)
Theorem removeFile_shared_id_blocks_submit
  (i j : nat) (f g : DOM.File) (card : CardState) (inputState : InputState) :
  nth_error (files inputState) i = Some f ->
  nth_error (files inputState) j = Some g ->
  i <> j ->
  getFileId g = getFileId f ->
  let card' := fst (removeFile i (card, inputState)) in
  let inputState' := snd (removeFile i (card, inputState)) in
  isUploading card' inputState' = true /\
  forall isLoading, submitDisabled card' inputState' isLoading = true.
Proof.
  intros Hi Hj Hij Hid. cbv zeta.
  assert (Hup : isUploading (fst (removeFile i (card, inputState)))
                            (snd (removeFile i (card, inputState))) = true).
  { unfold removeFile. cbn [fst snd]. rewrite Hi.
    unfold isUploading. cbn [uploadProgress files].
    apply existsb_exists. exists g. split.
    - apply (In_removeAt _ i j); assumption.
    - unfold progressOrZero. rewrite Hid, progressOf_deleteProgress. reflexivity. }
  split; [exact Hup | ].
  intros isLoading. unfold submitDisabled. rewrite Hup.
  rewrite orb_true_r. reflexivity.
Qed.

Lemma handleFiles_removeFile_round_trip_witness :
  let added := handleFiles [scan] (initialCard, mkInputState "" [lease] "English") in
  let removed := removeFile (List.length [lease]) added in
  files (snd added) = [lease] ++ [scan] /\
  files (snd removed) = [lease] /\
  text (snd removed) = "" /\
  language (snd removed) = "English" /\
  progressOf (uploadProgress (fst removed)) (getFileId scan) = None.
Proof.
  apply (handleFiles_removeFile_round_trip scan initialCard
                                           (mkInputState "" [lease] "English")).
  reflexivity.
Defined.

Lemma removeFile_shared_id_blocks_submit_witness :
  let st := (mkCard false false [] None [(getFileId scan, 100%float)],
             mkInputState "" [scan; scan] "English") in
  isUploading (fst st) (snd st) = false /\
  (isUploading (fst (removeFile 0 st)) (snd (removeFile 0 st)) = true /\
   forall isLoading,
     submitDisabled (fst (removeFile 0 st)) (snd (removeFile 0 st)) isLoading = true).
Proof.
  split; [reflexivity | ].
  apply (removeFile_shared_id_blocks_submit
           0 1 scan scan (mkCard false false [] None [(getFileId scan, 100%float)])
           (mkInputState "" [scan; scan] "English"));
    try reflexivity. discriminate.
Defined.

(** *** The simulated upload *)

(** A 20 MB file with [Math.random()] giving 0 every time: each firing adds
    100 / 120, rounded, and after 120 firings the progress is still below
    100; the firing after that reaches 100, and the one after that stops at
    100. *)
Example simulated_upload_20MB :
  let up n := ticks largest (List.repeat 0%float n) (simulateUpload largest []) in
  ltb (progressOrZero (up 120%nat) (getFileId largest)) 100 = true /\
  progressOrZero (up 121%nat) (getFileId largest) = 100%float /\
  progressOrZero (up 122%nat) (getFileId largest) = 100%float.
Proof. vm_compute. repeat split; reflexivity. Qed.

End UploadMore.
(* ===================================================================== *)
(** ** More on the handlers and on the page *)
(* ===================================================================== *)

Module PageMore.
Import Types App Samples Spec More.

Lemma errorText_nonempty (err : Error) : errorText err <> "".
Proof.
  unfold errorText, defaultErrorMsg.
  destruct (message err) as [ [ | c m] | ]; discriminate.
Qed.

Lemma firstRejected_nil {A} (order : list nat) :
  @Gemini.firstRejected A order [] = None.
Proof.
  induction order as [ | i order IH]; cbn; [reflexivity | ].
  destruct i; exact IH.
Qed.

Lemma processFilesForGemini_nil {W} (P : Gemini.Platform W) :
  Gemini.processFilesForGemini P [] = Resolved [].
Proof.
  unfold Gemini.processFilesForGemini, Gemini.Promise_all. cbn [List.map List.length seq].
  rewrite app_nil_r, firstRejected_nil. reflexivity.
Qed.

Lemma textPart_typed (text : string) :
  whitespaceOnly text = false ->
  Gemini.textPart text = [GenAI.TextPart ("User Text Input:" +++ Gemini.newline +++ text)].
Proof.
  intros H. unfold Gemini.textPart.
  destruct (JS.trim text) eqn:E; [ | reflexivity].
  apply AnalyzeFacts.trim_empty_iff in E. congruence.
Qed.

Section WithPlatform.

Context {W : Type}.
Variable P : Gemini.Platform W.

(** A submission of typed text alone, from the click to the result: with an
    API key and a text that is not only white space, one request is sent,
    whose only part is "User Text Input:" and the text; when the model
    answers it and the answer can be read as [v], the application ends in
    SUCCESS with [v] as result, no error message, and the input as it
    was. *)
Theorem handleSubmit_text_only
  (a : AppState) (w w' : W) (log : list effect)
  (response : GenAI.GenerateContentResponse) (v : json) :
  files (inputState a) = [] ->
  whitespaceOnly (text (inputState a)) = false ->
  ~ apiKeyAbsent P ->
  Gemini.generateContent P
    (Gemini.buildRequest
       [GenAI.TextPart ("User Text Input:" +++ Gemini.newline +++ text (inputState a))]
       (language (inputState a))) w
  = (Resolved response, w') ->
  Gemini.readResponse P response = Resolved v ->
  handleSubmit P a (w, log) =
  ({| status := SUCCESS; inputState := inputState a; result := v; errorMsg := "";
      showPrivacy := showPrivacy a; isDarkMode := isDarkMode a |},
   (w', log ++ [Invoke])).
Proof.
  intros Hfiles Htext Hkey Hgen Hread.
  unfold handleSubmit, submission.
  rewrite Hfiles, processFilesForGemini_nil.
  assert (Hparts : Gemini.buildParts (text (inputState a)) []
                   = [GenAI.TextPart ("User Text Input:" +++ Gemini.newline
                                      +++ text (inputState a))]).
  { unfold Gemini.buildParts. cbn [Gemini.fileParts flat_map app].
    apply textPart_typed. assumption. }
  rewrite (AnalyzeMore.analyzeDocument_answered P _ _ _ w w' log response);
    [ | assumption | rewrite Hparts; discriminate | rewrite Hparts; assumption].
  rewrite Hread. reflexivity.
Qed.

(** A file that cannot be processed stops the submission before anything is
    sent: the application ends in ERROR with "Could not process <name>.
    Please try a different file." for one of the failing files, and the
    model is not called. *)
Theorem handleSubmit_unreadable_file (a : AppState) (st : W * list effect) :
  (exists file, In file (files (inputState a)) /\ processingFails P file) ->
  exists file,
    In file (files (inputState a)) /\ processingFails P file /\
    handleSubmit P a st =
    ({| status := ERROR; inputState := inputState a; result := JNull;
        errorMsg := "Could not process " +++ DOM.name file
                    +++ ". Please try a different file.";
        showPrivacy := showPrivacy a; isDarkMode := isDarkMode a |},
     st).
Proof.
  intros (file & Hin & Hfail).
  destruct (Gemini.processFilesForGemini P (files (inputState a))) as [parts | e] eqn:E.
  - exfalso. apply FilesFacts.Promise_all_Resolved in E.
    apply In_nth_error in Hin as (i & Hi).
    assert (Hnth : nth_error (List.map (Gemini.processFile P) (files (inputState a))) i
                   = Some (Gemini.processFile P file))
      by (rewrite nth_error_map, Hi; reflexivity).
    rewrite E, nth_error_map in Hnth.
    destruct (nth_error parts i) as [part | ]; [ | discriminate].
    cbn in Hnth. injection Hnth as Hnth. symmetry in Hnth.
    apply FilesFacts.processFile_Resolved in Hnth. apply (Hfail part Hnth).
  - apply FilesFacts.Promise_all_Rejected in E as Hi. destruct Hi as (i & Hi).
    rewrite nth_error_map in Hi.
    destruct (nth_error (files (inputState a)) i) as [failed | ] eqn:Hfile;
      [ | discriminate].
    cbn in Hi. injection Hi as Hi.
    apply FilesFacts.processFile_Rejected in Hi as [Hfailed ->].
    exists failed. split; [eapply nth_error_In; eassumption | ].
    split; [assumption | ].
    unfold handleSubmit, submission. rewrite E. reflexivity.
Qed.

End WithPlatform.

Lemma handleSubmit_text_only_witness :
  handleSubmit (platform (Some "key") (stopped fullAnswer))
               (initialApp_with "What does this clause mean?") (O, []) =
  ({| status := SUCCESS;
      inputState := inputState (initialApp_with "What does this clause mean?");
      result := fullAnswerValue; errorMsg := "";
      showPrivacy := false; isDarkMode := false |},
   (1%nat, [] ++ [Invoke])).
Proof.
  apply (handleSubmit_text_only (platform (Some "key") (stopped fullAnswer))
           (initialApp_with "What does this clause mean?") O 1%nat []
           (stopped fullAnswer) fullAnswerValue).
  - reflexivity.
  - reflexivity.
  - intros [H | H]; discriminate H.
  - reflexivity.
  - reflexivity.
Defined.

Lemma handleSubmit_unreadable_file_witness :
  exists file,
    In file (files (inputState pendingApp)) /\
    processingFails (platform (Some "key") (stopped fullAnswer)) file /\
    handleSubmit (platform (Some "key") (stopped fullAnswer)) pendingApp (O, []) =
    ({| status := ERROR; inputState := inputState pendingApp; result := JNull;
        errorMsg := "Could not process " +++ DOM.name file
                    +++ ". Please try a different file.";
        showPrivacy := showPrivacy pendingApp; isDarkMode := isDarkMode pendingApp |},
     (O, [])).
Proof.
  apply (handleSubmit_unreadable_file (platform (Some "key") (stopped fullAnswer))
                                      pendingApp (O, [])).
  exists broken. split; [left; reflexivity | ].
  intros part Hpart. apply FilesFacts.processFile_Resolved in Hpart. discriminate Hpart.
Defined.

(** *** What the page shows *)

Lemma step_showsLastOutcome (p p' : Page) (ev : Event) :
  counted p -> showsLastOutcome (app p) -> step p ev = Some p' ->
  showsLastOutcome (app p').
Proof.
  unfold showsLastOutcome. intros Hc [Herr Hres] Hstep.
  destruct ev; cbn [step] in Hstep.
  1:{ destruct (InputCard.submitDisabled _ _ _); [discriminate | ].
      injection Hstep as <-. cbn. split; [split | ]; intros H;
        try discriminate; contradiction. }
  1:{ destruct (nth_error (outstanding p) index) as [input | ] eqn:Hnth; [ | discriminate].
      injection Hstep as <-. cbn [app].
      assert (Hproc : status (app p) = PROCESSING).
      { apply PageFacts.isLoading_PROCESSING. unfold counted in Hc.
        destruct (isLoading (app p)); [reflexivity | ].
        destruct (outstanding p); [destruct index; discriminate | discriminate]. }
      assert (Hmsg : errorMsg (app p) = "").
      { destruct (String.eqb_spec (errorMsg (app p)) "") as [E | E]; [exact E | ].
        apply Herr in E. congruence. }
      assert (Hnull : result (app p) = JNull).
      { destruct (result (app p)) eqn:E; try reflexivity;
          (assert (Hs : status (app p) = SUCCESS) by (apply Hres; discriminate));
          congruence. }
      destruct o as [response | err]; cbn.
      - rewrite Hmsg. split; [split | ]; intros H; try discriminate; try reflexivity.
        contradiction.
      - rewrite Hnull. split; [split | ]; intros H; try reflexivity.
        + apply errorText_nonempty.
        + contradiction. }
  1:{ destruct (AppStatus_eqb (status (app p)) SUCCESS) eqn:Hs; [ | discriminate].
      destruct (JSON.truthy (result (app p))); [ | discriminate].
      injection Hstep as <-. cbn.
      assert (Hsucc : status (app p) = SUCCESS) by (destruct (status (app p)); try discriminate; reflexivity).
      split; [split | ]; intros H; try discriminate; try contradiction.
      apply Herr in H. congruence. }
  all: repeat match type of Hstep with
       | context [if ?b then _ else _] => destruct b; try discriminate
       | context [match nth_error ?l ?i with _ => _ end] =>
           destruct (nth_error l i); try discriminate
       | context [let '(_, _) := ?x in _] => destruct x
       end;
       injection Hstep as <-; split; assumption.
Qed.

(** In every page the application can reach, what is shown belongs to the
    last submission: an error message is present exactly in status ERROR
    (and then it is not empty, so the banner always has a text), and a
    result is present only in status SUCCESS. *)
Theorem page_shows_last_outcome (dark : bool) (p : Page) :
  reachable dark p ->
  (status (app p) = ERROR <-> errorMsg (app p) <> "") /\
  (result (app p) <> JNull -> status (app p) = SUCCESS).
Proof.
  induction 1 as [ | p ev p' Hreach IH Hstep].
  - cbn. split; [split | ]; intros H; try discriminate; contradiction.
  - apply (step_showsLastOutcome p p' ev); [ | exact IH | exact Hstep].
    apply (PageFacts.reachable_counted dark). assumption.
Qed.

(** Starting over needs new input: after the button that starts over, the
    application is IDLE with empty text and no files, in the language it
    had, and the submit button is disabled. *)
Theorem analyze_new_disables_submit (p p' : Page) :
  step p ClickAnalyzeNew = Some p' ->
  status (app p') = IDLE /\
  text (inputState (app p')) = "" /\
  files (inputState (app p')) = [] /\
  language (inputState (app p')) = language (inputState (app p)) /\
  step p' ClickSubmit = None.
Proof.
  cbn [step]. intros Hstep.
  destruct (AppStatus_eqb (status (app p)) SUCCESS && JSON.truthy (result (app p)));
    [ | discriminate].
  injection Hstep as <-. cbn. repeat split.
Qed.

Lemma page_shows_last_outcome_witness :
  (status (app submittedPage) = ERROR <-> errorMsg (app submittedPage) <> "") /\
  (result (app submittedPage) <> JNull -> status (app submittedPage) = SUCCESS).
Proof.
  apply (page_shows_last_outcome false submittedPage).
  apply PageFacts.submittedPage_reachable.
Defined.

Lemma analyze_new_disables_submit_witness :
  status (app (mkPage (handleReset (app finishedPage)) (card finishedPage) [])) = IDLE /\
  text (inputState (app (mkPage (handleReset (app finishedPage)) (card finishedPage) []))) = "" /\
  files (inputState (app (mkPage (handleReset (app finishedPage)) (card finishedPage) []))) = [] /\
  language (inputState (app (mkPage (handleReset (app finishedPage)) (card finishedPage) [])))
  = language (inputState (app finishedPage)) /\
  step (mkPage (handleReset (app finishedPage)) (card finishedPage) []) ClickSubmit = None.
Proof.
  apply (analyze_new_disables_submit finishedPage). reflexivity.
Defined.

End PageMore.
(* ===================================================================== *)
(** ** More on failures along the way *)
(* ===================================================================== *)

Module PipelineMore.
Import Gemini Types App Samples Spec More.

Section WithPlatform.

Context {W : Type}.
Variable P : Platform W.

(** A model that keeps failing: when the first four calls all reject with
    errors the retry handler retries, [analyzeDocument] makes exactly those
    four calls, waiting 1000, 2000 and 4000 ms between them, and rejects
    with what the [catch] block makes of the fourth error: the text for a
    message with 400 in it, else the text for 429, else the text for 500 or
    503, else the error itself (so an error that is a quota error by its
    status alone is passed on as it came). *)
Theorem analyzeDocument_persistent_failure
  (text : string) (files : list ProcessedPart) (targetLanguage : string)
  (w : W) (log : list effect) :
  let call := generateContent P (buildRequest (buildParts text files) targetLanguage) in
  ~ apiKeyAbsent P ->
  buildParts text files <> [] ->
  (forall k, (k <= 3)%nat ->
     exists e, fst (call (after call k w)) = Rejected e /\ retryable e = true) ->
  exists last,
    fst (call (after call 3 w)) = Rejected last /\
    analyzeDocument P text files targetLanguage (w, log) =
    (Rejected
       (if messageIncludes last "400" then
          newError "The document is too large or contains prohibited content."
        else if messageIncludes last "429" then
          newError "Service is currently busy. Please try again in a moment."
        else if messageIncludes last "500" || messageIncludes last "503" then
          newError "Gemini service is temporarily unavailable. Please try again."
        else last),
     (after call 4 w,
      log ++ [Invoke; Delay 1000; Invoke; Delay 2000; Invoke; Delay 4000; Invoke])).
Proof.
  intros call Hkey Hparts Hfail.
  destruct (Hfail 3%nat (Nat.le_refl _)) as (last & Hlast & _).
  exists last. split; [exact Hlast | ].
  unfold analyzeDocument.
  destruct (truthyOpt (API_KEY P)) eqn:Ekey;
    [ | exfalso; apply Hkey, AnalyzeFacts.truthyOpt_absent; assumption].
  cbn [negb].
  destruct (buildParts text files) as [ | part parts] eqn:Eparts; [congruence | ].
  cbn [List.length Nat.eqb]. fold call.
  unfold callWithRetryDefault, MAX_RETRIES, INITIAL_RETRY_DELAY.
  change 3 with (Z.of_nat 3).
  rewrite (RetryFacts.callWithRetry_all_fail call 3 1000 w log Hfail), Hlast.
  cbn [bind]. reflexivity.
Qed.

(** A file that yields no data is left out without a word: when the only
    selected file is processed into an inline part with an empty MIME type
    or empty data, and the text is empty or white space, the submission ends
    in ERROR with "No input provided. Please upload a file or enter text.",
    and the model is not called. *)
Theorem handleSubmit_file_without_data
  (a : AppState) (file : DOM.File) (mime base64 : string) (st : W * list effect) :
  files (inputState a) = [file] ->
  whitespaceOnly (text (inputState a)) = true ->
  ~ apiKeyAbsent P ->
  partFor P file (inlinePartOf mime base64) ->
  mime = "" \/ base64 = "" ->
  handleSubmit P a st =
  ({| status := ERROR; inputState := inputState a; result := JNull;
      errorMsg := "No input provided. Please upload a file or enter text.";
      showPrivacy := showPrivacy a; isDarkMode := isDarkMode a |},
   st).
Proof.
  intros Hfiles Htext Hkey Hpart Hempty.
  unfold handleSubmit, submission. rewrite Hfiles.
  assert (Hproc : processFilesForGemini P [file] = Resolved [inlinePartOf mime base64]).
  { unfold processFilesForGemini. apply FilesFacts.Promise_all_Resolved.
    apply FilesFacts.map_processFile_Resolved. constructor; [exact Hpart | constructor]. }
  rewrite Hproc. unfold analyzeDocument.
  destruct (truthyOpt (API_KEY P)) eqn:Ekey;
    [ | exfalso; apply Hkey, AnalyzeFacts.truthyOpt_absent; assumption].
  cbn [negb]. unfold buildParts.
  rewrite (AnalyzeFacts.textPart_whitespace _ Htext).
  assert (Hnone : fileParts [inlinePartOf mime base64] = []).
  { destruct Hempty as [-> | ->]; [destruct base64 | destruct mime]; reflexivity. }
  rewrite Hnone. reflexivity.
Qed.

End WithPlatform.

Lemma analyzeDocument_persistent_failure_witness :
  let P := failingPlatform (mkError (Some "429 Too Many Requests") (Some 429)) in
  let call := generateContent P (buildRequest (buildParts "Hello" []) "English") in
  exists last,
    fst (call (after call 3 O)) = Rejected last /\
    analyzeDocument P "Hello" [] "English" (O, []) =
    (Rejected
       (if messageIncludes last "400" then
          newError "The document is too large or contains prohibited content."
        else if messageIncludes last "429" then
          newError "Service is currently busy. Please try again in a moment."
        else if messageIncludes last "500" || messageIncludes last "503" then
          newError "Gemini service is temporarily unavailable. Please try again."
        else last),
     (after call 4 O,
      [] ++ [Invoke; Delay 1000; Invoke; Delay 2000; Invoke; Delay 4000; Invoke])).
Proof.
  apply (analyzeDocument_persistent_failure
           (failingPlatform (mkError (Some "429 Too Many Requests") (Some 429)))
           "Hello" [] "English" O []).
  - intros [H | H]; discriminate H.
  - discriminate.
  - intros k _. eexists. split; reflexivity.
Defined.

Lemma handleSubmit_file_without_data_witness :
  handleSubmit emptyLeasePlatform (appWithFiles [lease]) (O, []) =
  ({| status := ERROR; inputState := inputState (appWithFiles [lease]); result := JNull;
      errorMsg := "No input provided. Please upload a file or enter text.";
      showPrivacy := false; isDarkMode := false |},
   (O, [])).
Proof.
  apply (handleSubmit_file_without_data emptyLeasePlatform (appWithFiles [lease])
                                        lease "application/pdf" "" (O, [])).
  - reflexivity.
  - reflexivity.
  - intros [H | H]; discriminate H.
  - apply (partFor_other emptyLeasePlatform lease "data:application/pdf;base64,");
      try reflexivity. discriminate.
  - right. reflexivity.
Defined.

End PipelineMore.
